(** * StunClientGo: the STUN binding client of [stun_c/StunClient.go]

    A shallow embedding of the message codec of the client (header
    encoding, the attribute walk of [recvMessage], the MAPPED-ADDRESS and
    XOR-MAPPED-ADDRESS parsers) and of the public call
    [RequestRemoteIPAndPort], followed by the properties of the
    specification that concern them.

    Conventions.  A byte is a [Z] in [0, 256).  Go's fixed-width integers
    are [Z]s whose wrap-around is written out ([int16_of], [add_int16]).  A
    function returning a [net.UDPAddr] pointer and an [error] returns a pair of options,
    [None] standing for [nil].  A run-time panic of the Go program (a slice
    bound out of range, a negative [make]) is the outcome [Panic]. *)

From Stdlib Require Import String ZArith List Lia Bool.
Import ListNotations.
Open Scope Z_scope.

(** ** Outcomes of a Go call *)

Inductive exec (A : Type) : Type :=
| Val (a : A)      (* the call returns *)
| Panic            (* the call panics at run time *)
| Block.           (* the call waits for the network for ever *)

Arguments Val {A} a.
Arguments Panic {A}.
Arguments Block {A}.

Definition exec_bind {A B} (m : exec A) (k : A -> exec B) : exec B :=
  match m with
  | Val a => k a
  | Panic => Panic
  | Block => Block
  end.

Declare Scope exec_scope.
Delimit Scope exec_scope with exec.
Notation "'let*' x ':=' m 'in' k" := (exec_bind m (fun x => k))
  (at level 10, x pattern, m at level 100, k at level 200) : exec_scope.

(** ** Fixed-width integers *)

(** The conversion [int16(u)] of Go: the value modulo 2^16, read as a
    signed number. *)
Definition int16_of (z : Z) : Z := (z + 32768) mod 65536 - 32768.

(** Addition at type [int16] wraps around. *)
Definition add_int16 (a b : Z) : Z := int16_of (a + b).

Definition int32_of (z : Z) : Z := (z + 2147483648) mod 4294967296 - 2147483648.

(** The conversion [byte(v)]. *)
Definition byte_of (v : Z) : Z := Z.land v 255.

Definition is_byte (b : Z) : Prop := 0 <= b < 256.
Definition is_int16 (v : Z) : Prop := -32768 <= v < 32768.
Definition is_int32 (v : Z) : Prop := -2147483648 <= v < 2147483648.
Definition is_uint16 (v : Z) : Prop := 0 <= v < 65536.

(** ** Constants of the package *)

Definition MAGIC_COOKIE : Z := 0x2112A442.

Definition REQUEST : Z := 0x0001.
Definition INDICATION : Z := 0x0010.
Definition SUCCESS_RESPONSE : Z := 0x0101.
Definition ERROR_RESPONSE : Z := 0x0110.

Definition trans_id_size : Z := 96.

Definition MAPPED_ADDRESS : Z := 0x0001.
Definition USERNAME : Z := 0x0006.
Definition MESSAGE_INTEGRITY : Z := 0x0008.
Definition ERROR_CODE : Z := 0x0009.
Definition UNKNOWN_ATTRIBUTES : Z := 0x000A.
Definition REALM : Z := 0x0014.
Definition NONCE : Z := 0x0015.
Definition XOR_MAPPED_ADDRESS : Z := 0x0020.

(** ** Errors *)

(** The error values the package can return: its five error structures,
    the errors made with [errors.New], the two errors [binary.Read] gives
    on a short input, the error of the entropy source, and the errors of
    a write to and of a read from the socket. *)
Inductive error : Type :=
| Gen_Random_Error
| Make_Header_Error
| Message_Send_Error
| Not_Success_Response (header body : list Z)
| Unknown_Transaction_Id (their_id our_id : list Z)
| errors_New (msg : string)
| io_EOF
| io_ErrUnexpectedEOF
| os_error (msg : string)
| net_write_error (msg : string)
| net_read_error (msg : string).

(** The error kinds of the specification. *)
Inductive error_kind : Type :=
| ConfigurationError
| RandomGenerationError
| HeaderEncodingError
| SendError
| ReceiveError
| NotSuccessResponse
| UnknownTransactionId
| AttributeParseError.

(** Each error value of the code read as a kind of the specification.
    The five structures are read by their own messages
    ([Gen_Random_Error]: cannot generate random hash); what the attribute
    walk and the address parsers return is an attribute parse error; an
    error of the socket is a send or a receive error by its operation. *)
Definition kind_of (e : error) : error_kind :=
  match e with
  | Gen_Random_Error => RandomGenerationError
  | Make_Header_Error => HeaderEncodingError
  | Message_Send_Error => SendError
  | Not_Success_Response _ _ => NotSuccessResponse
  | Unknown_Transaction_Id _ _ => UnknownTransactionId
  | errors_New _ => AttributeParseError
  | io_EOF => AttributeParseError
  | io_ErrUnexpectedEOF => AttributeParseError
  | os_error _ => RandomGenerationError
  | net_write_error _ => SendError
  | net_read_error _ => ReceiveError
  end.

(** ** Addresses *)

(** [net.UDPAddr]; the [Zone] field is never set by the package. *)
Record UDPAddr : Type := mkUDPAddr { IP : list Z; Port : Z }.

(** The result of a function returning a [net.UDPAddr] pointer and an [error]. *)
Definition addr_result : Type := (option UDPAddr * option error)%type.

(** ** Slices *)

(** A Go slice of bytes whose capacity may exceed its length: [backing]
    holds the bytes of the underlying array from the start of the slice
    to its end (so the capacity is its length) and [slen] is the length
    of the slice. *)
Record slice : Type := mkSlice { backing : list Z; slen : Z }.

Definition cap (s : slice) : Z := Z.of_nat (length (backing s)).
Definition len (s : slice) : Z := slen s.

(** The bytes of the slice. *)
Definition contents (s : slice) : list Z := firstn (Z.to_nat (slen s)) (backing s).

(** [s[lo:hi]]: the bounds are checked against the capacity. *)
Definition reslice (s : slice) (lo hi : Z) : exec slice :=
  if (0 <=? lo) && (lo <=? hi) && (hi <=? cap s)
  then Val (mkSlice (skipn (Z.to_nat lo) (backing s)) (hi - lo))
  else Panic.

(** [s[lo:]]: the upper bound is the length. *)
Definition reslice_from (s : slice) (lo : Z) : exec slice :=
  if (0 <=? lo) && (lo <=? len s)
  then Val (mkSlice (skipn (Z.to_nat lo) (backing s)) (len s - lo))
  else Panic.

(** A slice that owns its array: [make] then fill. *)
Definition slice_of (l : list Z) : slice := mkSlice l (Z.of_nat (length l)).

(** ** [encoding/binary], big-endian *)

Definition put_uint16 (v : Z) : list Z := [byte_of (Z.shiftr v 8); byte_of v].

Definition put_uint32 (v : Z) : list Z :=
  [byte_of (Z.shiftr v 24); byte_of (Z.shiftr v 16); byte_of (Z.shiftr v 8); byte_of v].

Definition get_uint16 (b0 b1 : Z) : Z := Z.lor b1 (Z.shiftl b0 8).

Definition get_uint32 (b0 b1 b2 b3 : Z) : Z :=
  Z.lor (Z.lor (Z.lor b3 (Z.shiftl b2 8)) (Z.shiftl b1 16)) (Z.shiftl b0 24).

(** [binary.Read] of a value of [n] bytes ([n > 0]) from a buffer holding [src]:
    the [n] bytes, or [io.EOF] when the buffer is empty, or
    [io.ErrUnexpectedEOF] when it is too short. *)
Definition binary_Read (n : nat) (src : list Z) : list Z + error :=
  match src with
  | [] => inr io_EOF
  | _ => if (n <=? length src)%nat then inl (firstn n src) else inr io_ErrUnexpectedEOF
  end.

(** [binary.Write]: the values the package writes are a 16-bit integer, a
    32-bit integer and a byte slice; none of them is refused. *)
Inductive go_value : Type :=
| V_int16 (v : Z)
| V_int32 (v : Z)
| V_bytes (bs : list Z).

Definition binary_Write (v : go_value) : list Z + error :=
  match v with
  | V_int16 v => inl (put_uint16 v)
  | V_int32 v => inl (put_uint32 v)
  | V_bytes bs => inl bs
  end.

(** The builtin [copy(dst, src)]: the new value of [dst]. *)
Definition copy (dst src : list Z) : list Z :=
  firstn (length dst) src ++ skipn (length src) dst.

(** [bytes.Equal]. *)
Definition bytes_Equal (a b : list Z) : bool :=
  if list_eq_dec Z.eq_dec a b then true else false.

(** ** Helper functions of the package *)

(** The loop of [makeHeader] over the values to write. *)
Fixpoint write_values (buf : list Z) (data : list go_value) : list Z + error :=
  match data with
  | [] => inl buf
  | v :: data' =>
      match binary_Write v with
      | inl bs => write_values (buf ++ bs) data'
      | inr _ => inr Make_Header_Error
      end
  end.

Definition makeHeader (message_type message_length magic_cookie : Z)
    (transaction_id : list Z) : list Z + error :=
  write_values []
    [V_int16 message_type; V_int16 message_length; V_int32 magic_cookie;
     V_bytes transaction_id].

(** What [getSingleAttribute] returns: type, length, value, bytes read
    and error. *)
Definition attribute_tuple : Type := (Z * Z * list Z * Z * option error)%type.

Definition getSingleAttribute (body : slice) : exec attribute_tuple :=
  if len body =? 0
  then Val (0, 0, [], 0, Some (errors_New "Cannot parse empty body."))
  else
    match binary_Read 4 (contents body) with
    | inr err => Val (0, 0, [], 0, Some err)
    | inl bs =>
        let Attr_type := int16_of (get_uint16 (nth 0 bs 0) (nth 1 bs 0)) in
        let Attr_len := int16_of (get_uint16 (nth 2 bs 0) (nth 3 bs 0)) in
        (* make([]byte, Attr_len) panics on a negative length *)
        if Attr_len <? 0 then Panic
        else
          let value := repeat 0 (Z.to_nat Attr_len) in
          (let* src := reslice body 4 (add_int16 4 Attr_len) in
           let value := copy value (contents src) in
           Val (Attr_type, Attr_len, value, 4 + Attr_len, None))%exec
    end.

(** [xor_bytes] changes the first [min (len one) (len two)] bytes of [one]
    and returns [one]. *)
Fixpoint xor_bytes (one two : list Z) : list Z :=
  match one, two with
  | a :: one', b :: two' => Z.lxor a b :: xor_bytes one' two'
  | _, _ => one
  end.

Definition get_addr_XOR (attribute transaction_id : list Z) : addr_result :=
  if (length attribute =? 0)%nat
  then (None, Some (errors_New "STUN Client: Empty attribute recieved"))
  else
    match binary_Read 4 attribute with
    | inr err => (None, Some err)
    | inl bs =>
        let Family := nth 1 bs 0 in
        let XPort := get_uint16 (nth 2 bs 0) (nth 3 bs 0) in
        let port := Z.lxor XPort (Z.shiftr MAGIC_COOKIE 16 mod 65536) in
        match binary_Write (V_int32 MAGIC_COOKIE) with
        | inr err => (None, Some err)
        | inl magic_cookie =>
            let XAddress := skipn 4 attribute in
            if Family =? 0x01 then
              (Some (mkUDPAddr (xor_bytes XAddress magic_cookie) port), None)
            else if Family =? 0x02 then
              let toXor := magic_cookie ++ transaction_id in
              (Some (mkUDPAddr (xor_bytes XAddress toXor) port), None)
            else (None, None)
        end
    end.

Definition get_addr (attribute : list Z) : addr_result :=
  if (length attribute =? 0)%nat
  then (None, Some (errors_New "STUN Client: Empty attribute recieved"))
  else
    match binary_Read 4 attribute with
    | inr err => (None, Some err)
    | inl bs =>
        let Port := get_uint16 (nth 2 bs 0) (nth 3 bs 0) in
        (Some (mkUDPAddr (skipn 4 attribute) Port), None)
    end.

(** ** Decoding a received packet *)

(** The header structure [recvMessage] reads into. *)
Record header_data : Type := mkHeader {
  Message_type : Z;
  Message_length : Z;
  Magic_cookie : Z;
  Transaction_id : list Z
}.

Definition zero_header : header_data := mkHeader 0 0 0 (repeat 0 12).

(** The 20 bytes read by [binary.Read] laid out in the structure. *)
Definition header_of_bytes (bs : list Z) : header_data :=
  mkHeader
    (int16_of (get_uint16 (nth 0 bs 0) (nth 1 bs 0)))
    (int16_of (get_uint16 (nth 2 bs 0) (nth 3 bs 0)))
    (int32_of (get_uint32 (nth 4 bs 0) (nth 5 bs 0) (nth 6 bs 0) (nth 7 bs 0)))
    (firstn 12 (skipn 8 bs)).

(** The [switch] on the attribute type: the two address attributes
    return, every other type goes on with the loop. *)
Inductive switch_result : Type :=
| Return (r : addr_result)
| Continue.

Definition attribute_switch (attr_type : Z) (attr_value transaction_id : list Z)
    : switch_result :=
  if attr_type =? MAPPED_ADDRESS then Return (get_addr attr_value)
  else if attr_type =? XOR_MAPPED_ADDRESS then Return (get_addr_XOR attr_value transaction_id)
  else if attr_type =? USERNAME then Continue
  else if attr_type =? MESSAGE_INTEGRITY then Continue
  else if attr_type =? ERROR_CODE then Continue
  else if attr_type =? REALM then Continue
  else if attr_type =? NONCE then Continue
  else Continue.

(** The loop [for bytes_read < int(data.Message_length)].  Every turn
    that goes on adds at least 4 to [bytes_read], so [fuel] turns are
    enough when [fuel] is at least [message_length - bytes_read]
    ([attribute_loop_fuel]); [None] is a loop cut short by the fuel. *)
Fixpoint attribute_loop (fuel : nat) (message_length : Z) (transaction_id : list Z)
    (bytes_read : Z) (body : slice) : option (exec addr_result) :=
  if bytes_read <? message_length then
    match fuel with
    | O => None
    | S fuel' =>
        match getSingleAttribute body with
        | Val (attr_type, attr_size, attr_value, r, err) =>
            let bytes_read := bytes_read + r in
            match reslice_from body attr_size with
            | Val body =>
                match err with
                | Some e => Some (Val (None, Some e))
                | None =>
                    match attribute_switch attr_type attr_value transaction_id with
                    | Return res => Some (Val res)
                    | Continue =>
                        attribute_loop fuel' message_length transaction_id bytes_read body
                    end
                end
            | Panic => Some Panic
            | Block => Some Block
            end
        | Panic => Some Panic
        | Block => Some Block
        end
    end
  else Some (Val (None, None)).

(** [recvMessage] from the restriction of the body on. *)
Definition decode_body (header body : slice) (data : header_data)
    (transaction_id : list Z) : exec addr_result :=
  (let* body := reslice body 0 (Message_length data) in
   if negb (Message_type data =? SUCCESS_RESPONSE) then
     Val (None, Some (Not_Success_Response (contents header) (contents body)))
   else if negb (bytes_Equal (firstn 12 (Transaction_id data)) transaction_id) then
     Val (None, Some (Unknown_Transaction_Id (firstn 12 (Transaction_id data)) transaction_id))
   else
     match attribute_loop (Z.to_nat (Message_length data)) (Message_length data)
             transaction_id 0 body with
     | Some res => res
     | None => Block
     end)%exec.

(** [recvMessage] once the packet buffer holds the datagram. *)
Definition decode (packet transaction_id : list Z) : exec addr_result :=
  (let* header := reslice (slice_of packet) 0 20 in
   let* body := reslice_from (slice_of packet) 20 in
   match binary_Read 20 (contents header) with
   | inl bs => decode_body header body (header_of_bytes bs) transaction_id
   | inr io_EOF => decode_body header body zero_header transaction_id
   | inr err => Val (None, Some err)
   end)%exec.

(** ** The socket and the entropy source *)

(** What the environment answers to the calls of the package: the
    results of [rand.Read], of [conn.WriteToUDP] and of
    [conn.ReadFromUDP], in the order of the calls.  [trace] records the
    calls made so far, most recent first. *)
Inductive write_result : Type :=
| Write_error (msg : string)
| Write_ok (n : Z).

Inductive read_result : Type :=
| Read_error (msg : string)
| Read_ok (datagram : list Z).

Inductive event : Type :=
| Ev_rand
| Ev_write (msg : list Z)
| Ev_read.

Record world : Type := mkWorld {
  rand_results : list (option (list Z));
  write_results : list write_result;
  read_results : list read_result;
  buffer_spare : nat;   (* spare capacity of a [bytes.Buffer] after its writes *)
  trace : list event
}.

Definition IO (A : Type) : Type := world -> exec A * world.

Definition io_ret {A} (a : A) : IO A := fun w => (Val a, w).

Definition io_bind {A B} (m : IO A) (k : A -> IO B) : IO B :=
  fun w =>
    match m w with
    | (Val a, w') => k a w'
    | (Panic, w') => (Panic, w')
    | (Block, w') => (Block, w')
    end.

Definition io_lift {A} (m : exec A) : IO A := fun w => (m, w).

Declare Scope io_scope.
Delimit Scope io_scope with io.
Notation "'do' x '<-' m ';' k" := (io_bind m (fun x => k))
  (at level 10, x pattern, m at level 100, k at level 200) : io_scope.

Definition log (e : event) (w : world) : world :=
  mkWorld (rand_results w) (write_results w) (read_results w) (buffer_spare w)
    (e :: trace w).

(** [rand.Read(b)]: the new value of [b], or an error. *)
Definition rand_Read (b : list Z) : IO (list Z + error) :=
  fun w =>
    match rand_results w with
    | [] => (Block, w)
    | r :: rest =>
        let w' := log Ev_rand
          (mkWorld rest (write_results w) (read_results w) (buffer_spare w) (trace w)) in
        match r with
        | Some bs => (Val (inl (copy b bs)), w')
        | None => (Val (inr (os_error "entropy source")), w')
        end
    end.

(** [conn] and [server] are pointers to these. *)
Inductive UDPConn : Type := udp_conn.

(** [conn.WriteToUDP(msg, server)]. *)
Definition WriteToUDP (conn : UDPConn) (msg : slice) (server : UDPAddr) : IO (Z + error) :=
  fun w =>
    match write_results w with
    | [] => (Block, w)
    | r :: rest =>
        let w' := log (Ev_write (contents msg))
          (mkWorld (rand_results w) rest (read_results w) (buffer_spare w) (trace w)) in
        match r with
        | Write_ok n => (Val (inl n), w')
        | Write_error msg => (Val (inr (net_write_error msg)), w')
        end
    end.

(** [conn.ReadFromUDP(packet)]: the number of bytes read and the new
    value of [packet], or an error. *)
Definition ReadFromUDP (conn : UDPConn) (packet : list Z) : IO (Z * list Z + error) :=
  fun w =>
    match read_results w with
    | [] => (Block, w)
    | r :: rest =>
        let w' := log Ev_read
          (mkWorld (rand_results w) (write_results w) rest (buffer_spare w) (trace w)) in
        match r with
        | Read_ok d =>
            (Val (inl (Z.of_nat (Nat.min (length d) (length packet)), copy packet d)), w')
        | Read_error msg => (Val (inr (net_read_error msg)), w')
        end
    end.

(** The loop of [sendMessage]: one turn per answer of the socket. *)
Fixpoint send_loop (turns : nat) (conn : UDPConn) (server : UDPAddr)
    (msg : slice) (size : Z) : IO (option error) :=
  if size =? 0 then io_ret None
  else
    match turns with
    | O => fun w => (Block, w)
    | S turns' =>
        (do r <- WriteToUDP conn msg server;
         match r with
         | inr err => io_ret (Some err)
         | inl n =>
             do msg' <- io_lift (reslice msg n (cap msg));
             send_loop turns' conn server msg' (size - n)
         end)%io
    end.

Definition sendMessage (conn : UDPConn) (server : UDPAddr) (header body : list Z)
    : IO (option error) :=
  if (length header =? 0)%nat then io_ret (Some Message_Send_Error)
  else
    fun w =>
      let message := header ++ body in
      let msg := mkSlice (message ++ repeat 0 (buffer_spare w)) (Z.of_nat (length message)) in
      let size := Z.of_nat (length message) in
      send_loop (length (write_results w)) conn server msg size w.

(** The receive loop of [recvMessage]: read until a read returns bytes. *)
Fixpoint receive_loop (turns : nat) (conn : UDPConn) (packet : list Z)
    : IO (list Z + error) :=
  match turns with
  | O => fun w => (Block, w)
  | S turns' =>
      (do r <- ReadFromUDP conn packet;
       match r with
       | inr err => io_ret (inr err)
       | inl (n, packet') =>
           if 0 <? n then io_ret (inl packet') else receive_loop turns' conn packet'
       end)%io
  end.

Definition recvMessage (conn : UDPConn) (transaction_id : list Z) : IO addr_result :=
  fun w =>
    let packet := repeat 0 1280 in
    (do r <- receive_loop (length (read_results w)) conn packet;
     match r with
     | inr err => io_ret (None, Some err)
     | inl packet' => io_lift (decode packet' transaction_id)
     end)%io w.

(** ** The exported function *)

(** [conn] and [server] are pointers: [None] is [nil]. *)
Definition RequestRemoteIPAndPort (conn : option UDPConn) (server : option UDPAddr)
    : IO addr_result :=
  match conn, server with
  | Some conn, Some server =>
      let secureRandomNumber := repeat 0 (Z.to_nat (trans_id_size / 8)) in
      (do r <- rand_Read secureRandomNumber;
       match r with
       | inr _ => io_ret (None, Some Gen_Random_Error)
       | inl secureRandomNumber =>
           match makeHeader REQUEST 0 MAGIC_COOKIE secureRandomNumber with
           | inr err => io_ret (None, Some err)
           | inl request_header =>
               do err <- sendMessage conn server request_header [];
               match err with
               | Some err => io_ret (None, Some err)
               | None =>
                   do res <- recvMessage conn secureRandomNumber;
                   match res with
                   | (_, Some err) => io_ret (None, Some err)
                   | (addr, None) => io_ret (addr, None)
                   end
               end
           end
       end)%io
  | _, _ => io_ret (None, Some Gen_Random_Error)
  end.

(** ** Notions used to state the properties *)

(** The packet buffer of [recvMessage] after one read of the datagram
    [raw]: 1280 zero bytes with the datagram copied over their start. *)
Definition received (raw : list Z) : list Z := copy (repeat 0 1280) raw.

(** The XOR encoding of an address in the words of the specification
    (the package itself only decodes): the value of an
    XOR-MAPPED-ADDRESS attribute is a reserved byte, the family, the port
    XORed with 0x2112, and the address XORed byte-wise with the cookie
    (IPv4) or with the cookie followed by the transaction id (IPv6). *)
Definition spec_cookie_bytes : list Z := [0x21; 0x12; 0xA4; 0x42].

Definition spec_xor_mask (family : Z) (T : list Z) : list Z :=
  if family =? 0x01 then spec_cookie_bytes else spec_cookie_bytes ++ T.

Definition spec_xor_bytewise (ip mask : list Z) : list Z :=
  map (fun am => Z.lxor (fst am) (snd am)) (combine ip mask).

Definition spec_xor_encode (family : Z) (ip : list Z) (port : Z) (T : list Z) : list Z :=
  let xport := Z.lxor port 0x2112 in
  [0; family; xport / 256; xport mod 256]
    ++ spec_xor_bytewise ip (spec_xor_mask family T).

(** The attribute walk of [recvMessage] comes to the end of the declared
    length having met no address attribute: either [bytes_read] has
    reached the length, or the attribute at the start of [body] is read
    without error, is neither MAPPED-ADDRESS nor XOR-MAPPED-ADDRESS, and
    the walk from the next position comes to the end. *)
Inductive walk_exhausts (message_length : Z) : Z -> slice -> Prop :=
| walk_done (bytes_read : Z) (body : slice) :
    message_length <= bytes_read ->
    walk_exhausts message_length bytes_read body
| walk_skip (bytes_read : Z) (body body' : slice)
    (attr_type attr_size r : Z) (attr_value : list Z) :
    bytes_read < message_length ->
    getSingleAttribute body = Val (attr_type, attr_size, attr_value, r, None) ->
    attr_type <> MAPPED_ADDRESS ->
    attr_type <> XOR_MAPPED_ADDRESS ->
    reslice_from body attr_size = Val body' ->
    walk_exhausts message_length (bytes_read + r) body' ->
    walk_exhausts message_length bytes_read body.

(** A stretch of the buffer that holds only zero bytes. *)
Definition all_zero (l : list Z) : Prop := Forall (fun b => b = 0) l.

(** ** Sample messages *)

Definition sample_id : list Z := [0; 1; 2; 3; 4; 5; 6; 7; 8; 9; 10; 11].
Definition other_id : list Z := [0xA0; 0xA1; 0xA2; 0xA3; 0xA4; 0xA5; 0xA6; 0xA7; 0xA8; 0xA9; 0xAA; 0xAB].

(** A header with the cookie of the package. *)
Definition sample_header (message_type message_length : Z) (id : list Z) : list Z :=
  put_uint16 message_type ++ put_uint16 message_length ++ put_uint32 MAGIC_COOKIE ++ id.

(** XOR-MAPPED-ADDRESS, length 8: 203.0.113.5 port 12345. *)
Definition sample_xor_attribute : list Z :=
  [0x00; 0x20; 0x00; 0x08; 0x00; 0x01; 0x11; 0x2B; 0xEA; 0x12; 0xD5; 0x47].

Definition sample_address : UDPAddr := mkUDPAddr [203; 0; 113; 5] 12345.

(** A response of 1320 bytes: one SOFTWARE attribute (0x8022) of 1296 bytes. *)
Definition long_response (message_type : Z) (id : list Z) : list Z :=
  sample_header message_type 1300 id ++ [0x80; 0x22; 0x05; 0x10] ++ repeat 0 1296.

(** * Properties *)

(** ** Big-endian bytes as arithmetic *)

Section Bits.

Lemma byte_of_mod (v : Z) : byte_of v = v mod 256.
Proof. unfold byte_of. change 255 with (Z.ones 8). now rewrite Z.land_ones. Qed.

Lemma byte_of_range (v : Z) : is_byte (byte_of v).
Proof. unfold is_byte. rewrite byte_of_mod. apply Z.mod_pos_bound. lia. Qed.

Lemma shiftr_div (v n : Z) : 0 <= n -> Z.shiftr v n = v / 2 ^ n.
Proof. intros. now apply Z.shiftr_div_pow2. Qed.

(** A byte has no bit in common with a value shifted left by 8 or more. *)
Lemma land_low_shifted (lo hi k : Z) :
  0 <= lo < 2 ^ k -> 0 <= k -> Z.land lo (Z.shiftl hi k) = 0.
Proof.
  intros Hlo Hk. apply Z.bits_inj'. intros n Hn.
  rewrite Z.land_spec, Z.bits_0.
  destruct (Z.lt_ge_cases n k) as [Hlt | Hge].
  - rewrite (Z.shiftl_spec_low hi k n Hlt). apply andb_false_r.
  - rewrite <- (Z.mod_small lo (2 ^ k)) by assumption.
    rewrite Z.mod_pow2_bits_high by lia. reflexivity.
Qed.

Lemma lor_low_shifted (lo hi k : Z) :
  0 <= lo < 2 ^ k -> 0 <= k -> Z.lor lo (Z.shiftl hi k) = hi * 2 ^ k + lo.
Proof.
  intros Hlo Hk.
  rewrite <- Z.lxor_lor by (now apply land_low_shifted).
  rewrite <- Z.add_nocarry_lxor by (now apply land_low_shifted).
  rewrite Z.shiftl_mul_pow2 by assumption. lia.
Qed.

Lemma get_uint16_arith (b0 b1 : Z) :
  is_byte b1 -> get_uint16 b0 b1 = b0 * 256 + b1.
Proof.
  intros H. unfold get_uint16. now rewrite (lor_low_shifted b1 b0 8).
Qed.

Lemma get_uint16_range (b0 b1 : Z) :
  is_byte b0 -> is_byte b1 -> is_uint16 (get_uint16 b0 b1).
Proof.
  unfold is_byte, is_uint16. intros H0 H1.
  rewrite get_uint16_arith by assumption. lia.
Qed.

Lemma get_uint32_arith (b0 b1 b2 b3 : Z) :
  is_byte b1 -> is_byte b2 -> is_byte b3 ->
  get_uint32 b0 b1 b2 b3 = b0 * 16777216 + b1 * 65536 + b2 * 256 + b3.
Proof.
  unfold is_byte. intros H1 H2 H3. unfold get_uint32.
  rewrite (lor_low_shifted b3 b2 8) by lia.
  rewrite (lor_low_shifted (b2 * 2 ^ 8 + b3) b1 16) by lia.
  rewrite (lor_low_shifted (b1 * 2 ^ 16 + (b2 * 2 ^ 8 + b3)) b0 24) by lia.
  lia.
Qed.

(** Writing a 16-bit value and reading it back. *)
Lemma put_get_uint16 (v : Z) :
  get_uint16 (byte_of (Z.shiftr v 8)) (byte_of v) = v mod 65536.
Proof.
  rewrite get_uint16_arith by apply byte_of_range.
  rewrite !byte_of_mod, shiftr_div by lia.
  change (2 ^ 8) with 256.
  rewrite (Z.mod_eq v 65536), (Z.mod_eq (v / 256) 256), (Z.mod_eq v 256) by lia.
  rewrite Z.div_div by lia. change (256 * 256) with 65536. lia.
Qed.

Lemma put_get_uint32 (v : Z) :
  get_uint32 (byte_of (Z.shiftr v 24)) (byte_of (Z.shiftr v 16))
             (byte_of (Z.shiftr v 8)) (byte_of v) = v mod 4294967296.
Proof.
  rewrite get_uint32_arith by apply byte_of_range.
  rewrite !byte_of_mod, !shiftr_div by lia.
  change (2 ^ 8) with 256. change (2 ^ 16) with 65536. change (2 ^ 24) with 16777216.
  pose proof (Z.div_div v 256 256) as D1.
  pose proof (Z.div_div v 65536 256) as D2.
  pose proof (Z.div_div v 16777216 256) as D3.
  change (256 * 256) with 65536 in D1. change (65536 * 256) with 16777216 in D2.
  change (16777216 * 256) with 4294967296 in D3.
  rewrite (Z.mod_eq v 4294967296), (Z.mod_eq (v / 16777216) 256),
    (Z.mod_eq (v / 65536) 256), (Z.mod_eq (v / 256) 256), (Z.mod_eq v 256) by lia.
  rewrite D1, D2, D3 by lia. lia.
Qed.

Lemma int16_of_mod (v : Z) : is_int16 v -> int16_of (v mod 65536) = v.
Proof.
  unfold is_int16, int16_of. intros H.
  rewrite Z.add_mod_idemp_l by lia. rewrite Z.mod_small; lia.
Qed.

Lemma int32_of_mod (v : Z) : is_int32 v -> int32_of (v mod 4294967296) = v.
Proof.
  unfold is_int32, int32_of. intros H.
  rewrite Z.add_mod_idemp_l by lia. rewrite Z.mod_small; lia.
Qed.

Lemma int16_of_small (v : Z) : is_int16 v -> int16_of v = v.
Proof.
  unfold is_int16, int16_of. intros H. rewrite Z.mod_small; lia.
Qed.


End Bits.

(** ** Header encoding and parsing *)

Section Header.

Lemma makeHeader_bytes (message_type message_length magic_cookie : Z)
    (transaction_id : list Z) :
  makeHeader message_type message_length magic_cookie transaction_id =
  inl (put_uint16 message_type ++ put_uint16 message_length
         ++ put_uint32 magic_cookie ++ transaction_id).
Proof. reflexivity. Qed.

Lemma header_of_bytes_put (ty ln ck : Z) (tid rest : list Z) :
  is_int16 ty -> is_int16 ln -> is_int32 ck -> length tid = 12%nat ->
  header_of_bytes (put_uint16 ty ++ put_uint16 ln ++ put_uint32 ck ++ tid ++ rest)
  = mkHeader ty ln ck tid.
Proof.
  intros Hty Hln Hck Htid. unfold header_of_bytes, put_uint16, put_uint32.
  cbn [app nth skipn].
  rewrite !put_get_uint16, put_get_uint32.
  rewrite !int16_of_mod, int32_of_mod by assumption.
  rewrite <- Htid, firstn_app, Nat.sub_diag, firstn_all. cbn [firstn].
  now rewrite app_nil_r.
Qed.

Lemma binary_Read_enough (n : nat) (src : list Z) :
  (0 < n)%nat -> (n <= length src)%nat -> binary_Read n src = inl (firstn n src).
Proof.
  intros Hn Hle. unfold binary_Read. destruct src as [| b src'].
  - cbn in Hle. lia.
  - now rewrite (proj2 (Nat.leb_le n (length (b :: src'))) Hle).
Qed.

Lemma binary_Read_short (n : nat) (src : list Z) :
  (0 < length src < n)%nat -> binary_Read n src = inr io_ErrUnexpectedEOF.
Proof.
  intros [Hpos Hlt]. unfold binary_Read. destruct src as [| b src'].
  - cbn in Hpos. lia.
  - now rewrite (proj2 (Nat.leb_gt n (length (b :: src'))) Hlt).
Qed.

End Header.

(** C6.  Header round trip: for every 16-bit message type and message
    length, every 32-bit cookie and every transaction id of 12 bytes,
    [makeHeader] succeeds with 20 bytes, laid out big-endian as type,
    length, cookie, transaction id, and the header parse of the decoder
    ([binary.Read] of 20 bytes into the header structure) gives back the
    four fields exactly. *)
Theorem header_round_trip (message_type message_length magic_cookie : Z)
    (transaction_id : list Z) :
  is_int16 message_type -> is_int16 message_length -> is_int32 magic_cookie ->
  length transaction_id = 12%nat ->
  exists header,
    makeHeader message_type message_length magic_cookie transaction_id = inl header
    /\ header = put_uint16 message_type ++ put_uint16 message_length
                  ++ put_uint32 magic_cookie ++ transaction_id
    /\ length header = 20%nat
    /\ exists bs, binary_Read 20 header = inl bs
         /\ header_of_bytes bs =
            mkHeader message_type message_length magic_cookie transaction_id.
Proof.
  intros Hty Hln Hck Htid. eexists. split; [apply makeHeader_bytes |].
  split; [reflexivity |].
  assert (Hlen : length (put_uint16 message_type ++ put_uint16 message_length
                   ++ put_uint32 magic_cookie ++ transaction_id) = 20%nat)
    by (cbn [put_uint16 put_uint32 app length]; now rewrite Htid).
  split; [exact Hlen |].
  exists (put_uint16 message_type ++ put_uint16 message_length
            ++ put_uint32 magic_cookie ++ transaction_id).
  split.
  - rewrite binary_Read_enough by lia.
    rewrite <- Hlen at 1. now rewrite firstn_all.
  - rewrite <- (app_nil_r transaction_id) at 1. now apply header_of_bytes_put.
Qed.

Lemma header_round_trip_witness :
  exists header,
    makeHeader 0x0101 12 MAGIC_COOKIE [0;1;2;3;4;5;6;7;8;9;10;11] = inl header
    /\ header = put_uint16 0x0101 ++ put_uint16 12
                  ++ put_uint32 MAGIC_COOKIE ++ [0;1;2;3;4;5;6;7;8;9;10;11]
    /\ length header = 20%nat
    /\ exists bs, binary_Read 20 header = inl bs
         /\ header_of_bytes bs =
            mkHeader 0x0101 12 MAGIC_COOKIE [0;1;2;3;4;5;6;7;8;9;10;11].
Proof.
  apply header_round_trip; unfold is_int16, is_int32, MAGIC_COOKIE; try lia.
  reflexivity.
Defined.

(** ** The XOR transform *)

Section Xor.

Lemma lxor_cancel (a m : Z) : Z.lxor (Z.lxor a m) m = a.
Proof. now rewrite Z.lxor_assoc, Z.lxor_nilpotent, Z.lxor_0_r. Qed.

(** Undoing the byte-wise XOR of the specification with [xor_bytes]. *)
Lemma xor_bytes_spec_xor (ip mask : list Z) :
  (length ip <= length mask)%nat ->
  xor_bytes (spec_xor_bytewise ip mask) mask = ip.
Proof.
  revert mask. induction ip as [| a ip IH]; intros mask Hlen.
  - now destruct mask.
  - destruct mask as [| m mask]; cbn in Hlen; [lia |].
    cbn. rewrite lxor_cancel. f_equal. apply IH. lia.
Qed.

(** XOR of two 16-bit values is a 16-bit value. *)
Lemma lxor_uint16 (a b : Z) : is_uint16 a -> is_uint16 b -> is_uint16 (Z.lxor a b).
Proof.
  unfold is_uint16. intros Ha Hb.
  assert (E : Z.lxor a b mod 2 ^ 16 = Z.lxor a b).
  { apply Z.bits_inj'. intros n Hn.
    destruct (Z.lt_ge_cases n 16) as [Hlt | Hge].
    - now rewrite Z.mod_pow2_bits_low.
    - rewrite Z.mod_pow2_bits_high by lia. rewrite Z.lxor_spec.
      rewrite <- (Z.mod_small a (2 ^ 16)), <- (Z.mod_small b (2 ^ 16)) by (cbn; lia).
      now rewrite !Z.mod_pow2_bits_high by lia. }
  rewrite <- E. apply Z.mod_pos_bound. reflexivity.
Qed.

Lemma get_uint16_split (x : Z) : is_uint16 x -> get_uint16 (x / 256) (x mod 256) = x.
Proof.
  unfold is_uint16. intros Hx.
  rewrite get_uint16_arith by (unfold is_byte; apply Z.mod_pos_bound; lia).
  rewrite (Z.div_mod x 256) at 3 by lia. lia.
Qed.

End Xor.

(** C4.  XOR-MAPPED-ADDRESS round trip: with the cookie 0x2112A442, for
    every transaction id [T] of 12 bytes, every 16-bit port and every
    address of 4 bytes (family 0x01) or 16 bytes (family 0x02), the
    attribute value built by the XOR encoding of the specification is
    decoded by [get_addr_XOR] with the same [T] to the original address
    and port, without error; the family is the one the length of the
    address stands for. *)
Theorem xor_mapped_address_round_trip (family port : Z) (ip T : list Z) :
  length T = 12%nat ->
  is_uint16 port ->
  (family = 0x01 /\ length ip = 4%nat) \/ (family = 0x02 /\ length ip = 16%nat) ->
  get_addr_XOR (spec_xor_encode family ip port T) T
    = (Some (mkUDPAddr ip port), None)
  /\ length (IP (mkUDPAddr ip port)) = (if family =? 0x01 then 4%nat else 16%nat).
Proof.
  intros HT Hport Hfam.
  assert (Hx : is_uint16 (Z.lxor port 0x2112))
    by (apply lxor_uint16; [assumption | unfold is_uint16; lia]).
  split.
  - unfold get_addr_XOR, spec_xor_encode.
    cbn [app length Nat.eqb binary_Read Nat.leb firstn nth skipn binary_Write].
    rewrite get_uint16_split by assumption.
    change (Z.shiftr MAGIC_COOKIE 16 mod 65536) with 0x2112.
    rewrite lxor_cancel.
    change (put_uint32 MAGIC_COOKIE) with spec_cookie_bytes.
    destruct Hfam as [[-> Hip] | [-> Hip]]; cbn [Z.eqb Pos.eqb spec_xor_mask].
    + rewrite xor_bytes_spec_xor by (rewrite Hip; cbn; lia). reflexivity.
    + rewrite xor_bytes_spec_xor
        by (rewrite Hip, length_app, HT; cbn; lia).
      reflexivity.
  - destruct Hfam as [[-> Hip] | [-> Hip]]; exact Hip.
Qed.

Lemma xor_mapped_address_round_trip_witness :
  get_addr_XOR (spec_xor_encode 0x01 [203; 0; 113; 5] 12345 [0;1;2;3;4;5;6;7;8;9;10;11])
               [0;1;2;3;4;5;6;7;8;9;10;11]
    = (Some (mkUDPAddr [203; 0; 113; 5] 12345), None)
  /\ length (IP (mkUDPAddr [203; 0; 113; 5] 12345)) = 4%nat.
Proof.
  apply (xor_mapped_address_round_trip 0x01 12345 [203; 0; 113; 5]
           [0;1;2;3;4;5;6;7;8;9;10;11]).
  - reflexivity.
  - unfold is_uint16. lia.
  - left. split; reflexivity.
Defined.

(** ** The packet buffer and the checks of [recvMessage] *)

Section Decode.

Lemma copy_length (dst src : list Z) : length (copy dst src) = length dst.
Proof.
  unfold copy. rewrite length_app, length_firstn, length_skipn. lia.
Qed.

Lemma received_length (raw : list Z) : length (received raw) = 1280%nat.
Proof. unfold received. now rewrite copy_length, repeat_length. Qed.

(** A datagram that fits the buffer is followed by zero bytes. *)
Lemma received_short (raw : list Z) :
  (length raw <= 1280)%nat ->
  received raw = raw ++ repeat 0 (1280 - length raw).
Proof.
  intros H. unfold received, copy. rewrite repeat_length.
  rewrite firstn_all2 by assumption. f_equal.
  replace 1280%nat with (length raw + (1280 - length raw))%nat at 1 by lia.
  rewrite repeat_app, skipn_app, repeat_length, Nat.sub_diag.
  rewrite skipn_all2 by (rewrite repeat_length; lia). reflexivity.
Qed.

Lemma reslice_ok (s : slice) (lo hi : Z) :
  0 <= lo <= hi -> hi <= cap s ->
  reslice s lo hi = Val (mkSlice (skipn (Z.to_nat lo) (backing s)) (hi - lo)).
Proof.
  intros H1 H2. unfold reslice.
  now rewrite (proj2 (Z.leb_le 0 lo)), (proj2 (Z.leb_le lo hi)),
    (proj2 (Z.leb_le hi (cap s))) by lia.
Qed.

Lemma reslice_from_ok (s : slice) (lo : Z) :
  0 <= lo <= len s ->
  reslice_from s lo = Val (mkSlice (skipn (Z.to_nat lo) (backing s)) (len s - lo)).
Proof.
  intros H. unfold reslice_from.
  now rewrite (proj2 (Z.leb_le 0 lo)), (proj2 (Z.leb_le lo (len s))) by lia.
Qed.

Lemma reslice_from_panic (s : slice) (lo : Z) :
  lo < 0 \/ len s < lo -> reslice_from s lo = Panic.
Proof.
  intros H. unfold reslice_from. destruct H.
  - now rewrite (proj2 (Z.leb_gt 0 lo)) by assumption.
  - rewrite (proj2 (Z.leb_gt lo (len s))) by assumption. now rewrite andb_false_r.
Qed.

(** The split of the packet into header and body and the header parse. *)
Lemma decode_split (packet transaction_id : list Z) :
  length packet = 1280%nat ->
  decode packet transaction_id =
  decode_body (mkSlice packet 20) (mkSlice (skipn 20 packet) 1260)
    (header_of_bytes (firstn 20 packet)) transaction_id.
Proof.
  intros Hlen. unfold decode.
  assert (Hcap : cap (slice_of packet) = 1280)
    by (unfold cap, slice_of; cbn [backing]; now rewrite Hlen).
  assert (Hl : len (slice_of packet) = 1280)
    by (unfold len, slice_of; cbn [slen]; now rewrite Hlen).
  rewrite reslice_ok by (rewrite ?Hcap; lia).
  rewrite reslice_from_ok by (rewrite Hl; lia).
  rewrite Hl. unfold slice_of, contents. cbn [exec_bind backing slen].
  change (Z.to_nat 0) with 0%nat. change (Z.to_nat 20) with 20%nat.
  change (Z.to_nat (20 - 0)) with 20%nat.
  change (20 - 0) with 20. change (1280 - 20) with 1260.
  rewrite skipn_O.
  assert (Hf : length (firstn 20 packet) = 20%nat)
    by (rewrite length_firstn, Hlen; reflexivity).
  rewrite binary_Read_enough by (rewrite ?Hf; lia).
  rewrite firstn_firstn. reflexivity.
Qed.

Lemma bytes_Equal_true (a b : list Z) : bytes_Equal a b = true <-> a = b.
Proof. unfold bytes_Equal. destruct (list_eq_dec Z.eq_dec a b); intuition congruence. Qed.

Lemma bytes_Equal_false (a b : list Z) : bytes_Equal a b = false <-> a <> b.
Proof. unfold bytes_Equal. destruct (list_eq_dec Z.eq_dec a b); intuition congruence. Qed.

(** A declared length outside the body's capacity panics before any check. *)
Lemma decode_body_panic (header body : slice) (data : header_data) (tid : list Z) :
  Message_length data < 0 \/ cap body < Message_length data ->
  decode_body header body data tid = Panic.
Proof.
  intros H. unfold decode_body, reslice.
  replace ((0 <=? 0) && (0 <=? Message_length data) && (Message_length data <=? cap body))
    with false; [reflexivity |].
  symmetry. destruct H.
  - rewrite (proj2 (Z.leb_gt 0 (Message_length data))) by assumption. reflexivity.
  - rewrite (proj2 (Z.leb_gt (Message_length data) (cap body))) by assumption.
    apply andb_false_r.
Qed.

Lemma reslice_body (body : slice) (n : Z) :
  0 <= n <= cap body ->
  reslice body 0 n = Val (mkSlice (backing body) n).
Proof.
  intros H. unfold reslice.
  rewrite (proj2 (Z.leb_le 0 n)), (proj2 (Z.leb_le n (cap body))) by lia.
  cbn. now rewrite Z.sub_0_r.
Qed.

Lemma decode_body_not_success (header body : slice) (data : header_data) (tid : list Z) :
  0 <= Message_length data <= cap body ->
  Message_type data <> SUCCESS_RESPONSE ->
  decode_body header body data tid =
  Val (None, Some (Not_Success_Response (contents header)
                     (firstn (Z.to_nat (Message_length data)) (backing body)))).
Proof.
  intros HL Hty. unfold decode_body. rewrite reslice_body by assumption.
  cbn [exec_bind]. rewrite (proj2 (Z.eqb_neq _ _) Hty). reflexivity.
Qed.

Lemma decode_body_unknown_id (header body : slice) (data : header_data) (tid : list Z) :
  0 <= Message_length data <= cap body ->
  Message_type data = SUCCESS_RESPONSE ->
  firstn 12 (Transaction_id data) <> tid ->
  decode_body header body data tid =
  Val (None, Some (Unknown_Transaction_Id (firstn 12 (Transaction_id data)) tid)).
Proof.
  intros HL Hty Hid. unfold decode_body. rewrite reslice_body by assumption.
  cbn [exec_bind]. rewrite (proj2 (Z.eqb_eq _ _) Hty).
  rewrite (proj2 (bytes_Equal_false _ _) Hid). reflexivity.
Qed.

Lemma decode_body_walk (header body : slice) (data : header_data) (tid : list Z) :
  0 <= Message_length data <= cap body ->
  Message_type data = SUCCESS_RESPONSE ->
  firstn 12 (Transaction_id data) = tid ->
  decode_body header body data tid =
  match attribute_loop (Z.to_nat (Message_length data)) (Message_length data) tid 0
          (mkSlice (backing body) (Message_length data)) with
  | Some res => res
  | None => Block
  end.
Proof.
  intros HL Hty Hid. unfold decode_body. rewrite reslice_body by assumption.
  cbn [exec_bind]. rewrite (proj2 (Z.eqb_eq _ _) Hty).
  rewrite (proj2 (bytes_Equal_true _ _) Hid). reflexivity.
Qed.

Lemma header_transaction_id_length (packet : list Z) :
  length packet = 1280%nat ->
  firstn 12 (Transaction_id (header_of_bytes (firstn 20 packet)))
  = Transaction_id (header_of_bytes (firstn 20 packet)).
Proof.
  intros H. cbn [header_of_bytes Transaction_id]. now rewrite firstn_firstn.
Qed.

End Decode.

(** ** Order of the checks *)

(** A declared message length that is negative or exceeds the 1260 bytes
    of the buffer after the header makes the decoding panic, whatever the
    message type and the transaction id. *)
Lemma decode_length_out_of_range (raw tid : list Z) :
  let data := header_of_bytes (firstn 20 (received raw)) in
  Message_length data < 0 \/ 1260 < Message_length data ->
  decode (received raw) tid = Panic.
Proof.
  intros data H. pose proof (received_length raw) as Hlen.
  rewrite decode_split by assumption. apply decode_body_panic.
  unfold cap. cbn [backing]. rewrite length_skipn, Hlen. exact H.
Qed.

(** C5, as the code has it.  For every datagram whose declared message
    length fits the body of the receive buffer (0 to 1260), the message
    type is checked before the transaction id: (a) a success response
    whose transaction id is not the expected one fails with
    [Unknown_Transaction_Id] carrying both ids and resolves no address,
    and (b) a response of any other type fails with
    [Not_Success_Response] carrying the header and the restricted body,
    whatever its transaction id. *)
Theorem check_order (raw tid : list Z) :
  let data := header_of_bytes (firstn 20 (received raw)) in
  0 <= Message_length data <= 1260 ->
  (Message_type data = SUCCESS_RESPONSE -> Transaction_id data <> tid ->
   decode (received raw) tid =
   Val (None, Some (Unknown_Transaction_Id (Transaction_id data) tid)))
  /\ (Message_type data <> SUCCESS_RESPONSE ->
      decode (received raw) tid =
      Val (None, Some (Not_Success_Response (firstn 20 (received raw))
             (firstn (Z.to_nat (Message_length data)) (skipn 20 (received raw)))))).
Proof.
  intros data HL. pose proof (received_length raw) as Hlen.
  assert (Hcap : cap (mkSlice (skipn 20 (received raw)) 1260) = 1260)
    by (unfold cap; cbn [backing]; rewrite length_skipn, Hlen; reflexivity).
  split.
  - intros Hty Hid. rewrite decode_split by assumption. fold data.
    rewrite decode_body_unknown_id.
    + unfold data. now rewrite header_transaction_id_length.
    + now rewrite Hcap.
    + assumption.
    + unfold data. now rewrite header_transaction_id_length.
  - intros Hty. rewrite decode_split by assumption. fold data.
    rewrite decode_body_not_success by (rewrite ?Hcap; assumption).
    reflexivity.
Qed.

Lemma check_order_witness :
  decode (received (sample_header ERROR_RESPONSE 12 other_id ++ sample_xor_attribute))
         sample_id
  = Val (None, Some (Not_Success_Response
                       (sample_header ERROR_RESPONSE 12 other_id) sample_xor_attribute)).
Proof.
  refine (proj2 (check_order
            (sample_header ERROR_RESPONSE 12 other_id ++ sample_xor_attribute)
            sample_id _) _).
  - vm_compute. split; intro; discriminate.
  - vm_compute. intro; discriminate.
Defined.

(** C5 as stated fails on a response longer than the receive buffer: a
    well-formed error response of 1320 bytes with another transaction id
    declares 1300 body bytes, and restricting the body panics before
    either check; so does the success response of that size. *)
Lemma check_order_counterexample :
  Message_type (header_of_bytes (firstn 20 (received (long_response ERROR_RESPONSE other_id))))
    <> SUCCESS_RESPONSE
  /\ Transaction_id (header_of_bytes (firstn 20 (received (long_response ERROR_RESPONSE other_id))))
    <> sample_id
  /\ decode (received (long_response ERROR_RESPONSE other_id)) sample_id = Panic
  /\ Message_type (header_of_bytes (firstn 20 (received (long_response SUCCESS_RESPONSE other_id))))
    = SUCCESS_RESPONSE
  /\ decode (received (long_response SUCCESS_RESPONSE other_id)) sample_id = Panic.
Proof.
  split; [vm_compute; discriminate |].
  split; [vm_compute; discriminate |].
  split; [vm_compute; reflexivity |].
  split; vm_compute; reflexivity.
Qed.

(** ** The attribute walk *)

Section Walk.

Lemma binary_Read_inl (n : nat) (src bs : list Z) :
  binary_Read n src = inl bs -> bs = firstn n src /\ (n <= length src)%nat.
Proof.
  unfold binary_Read. destruct src as [| b src']; [discriminate |].
  destruct (Nat.leb_spec n (length (b :: src'))); [| discriminate].
  intros [= <-]. now split.
Qed.

(** What a successful [getSingleAttribute] returns. *)
Lemma getSingleAttribute_ok (body : slice) (ty sz r : Z) (v : list Z) :
  getSingleAttribute body = Val (ty, sz, v, r, None) ->
  0 <= sz /\ r = 4 + sz.
Proof.
  unfold getSingleAttribute. destruct (len body =? 0); [discriminate |].
  destruct (binary_Read 4 (contents body)) as [bs | err]; [| discriminate].
  destruct (Z.ltb_spec (int16_of (get_uint16 (nth 2 bs 0) (nth 3 bs 0))) 0);
    [discriminate |].
  destruct (reslice body 4 _); cbn [exec_bind]; [| discriminate | discriminate].
  intros [= _ <- _ <-]. now split.
Qed.

(** A failed [getSingleAttribute] has read nothing. *)
Lemma getSingleAttribute_err (body : slice) (ty sz r : Z) (v : list Z) (e : error) :
  getSingleAttribute body = Val (ty, sz, v, r, Some e) -> sz = 0 /\ r = 0.
Proof.
  unfold getSingleAttribute. destruct (len body =? 0); [now intros [= _ <- _ <- _] |].
  destruct (binary_Read 4 (contents body)) as [bs | err]; [| now intros [= _ <- _ <- _]].
  destruct (_ <? 0); [discriminate |].
  destruct (reslice body 4 _); cbn [exec_bind]; discriminate.
Qed.

Lemma attribute_switch_other (ty : Z) (v tid : list Z) :
  ty <> MAPPED_ADDRESS -> ty <> XOR_MAPPED_ADDRESS ->
  attribute_switch ty v tid = Continue.
Proof.
  intros H1 H2. unfold attribute_switch.
  rewrite (proj2 (Z.eqb_neq _ _) H1), (proj2 (Z.eqb_neq _ _) H2).
  repeat match goal with |- context [if ?c then _ else _] => destruct c end;
    reflexivity.
Qed.

(** The fuel is enough: the loop is never cut short. *)
Lemma attribute_loop_fuel (fuel : nat) (ml : Z) (tid : list Z) (bytes_read : Z)
    (body : slice) :
  ml - bytes_read <= Z.of_nat fuel ->
  attribute_loop fuel ml tid bytes_read body <> None.
Proof.
  revert bytes_read body. induction fuel as [| fuel IH]; intros bytes_read body Hf.
  - cbn [attribute_loop]. destruct (Z.ltb_spec bytes_read ml); [lia | discriminate].
  - cbn [attribute_loop]. destruct (Z.ltb_spec bytes_read ml); [| discriminate].
    destruct (getSingleAttribute body) as [[[[[ty sz] v] r] err] | |] eqn:Hg;
      [| discriminate | discriminate].
    destruct (reslice_from body sz) as [body' | |]; [| discriminate | discriminate].
    destruct err as [e |]; [discriminate |].
    destruct (attribute_switch ty v tid); [discriminate |].
    apply IH. apply getSingleAttribute_ok in Hg. lia.
Qed.

(** The walk itself never waits. *)
Lemma attribute_loop_no_block (fuel : nat) (ml : Z) (tid : list Z) (bytes_read : Z)
    (body : slice) :
  attribute_loop fuel ml tid bytes_read body <> Some Block.
Proof.
  revert bytes_read body. induction fuel as [| fuel IH]; intros bytes_read body;
    cbn [attribute_loop]; destruct (bytes_read <? ml); try discriminate.
  destruct (getSingleAttribute body) as [[[[[ty sz] v] r] err] | |] eqn:Hg;
    try discriminate.
  - destruct (reslice_from body sz) as [body' | |] eqn:Hre; try discriminate.
    + destruct err; [discriminate |].
      destruct (attribute_switch ty v tid); [discriminate | apply IH].
    + unfold reslice_from in Hre. destruct (_ && _); discriminate.
  - unfold getSingleAttribute in Hg.
    destruct (len body =? 0); [discriminate |].
    destruct (binary_Read 4 (contents body)); [| discriminate].
    destruct (_ <? 0); [discriminate |].
    unfold reslice in Hg. destruct (_ && _); discriminate.
Qed.

(** A walk that comes to the end returns no address and no error. *)
Lemma attribute_loop_exhausts (ml : Z) (tid : list Z) (bytes_read : Z) (body : slice) :
  walk_exhausts ml bytes_read body ->
  forall fuel, ml - bytes_read <= Z.of_nat fuel ->
  attribute_loop fuel ml tid bytes_read body = Some (Val (None, None)).
Proof.
  induction 1 as [bytes_read body Hdone
                 | bytes_read body body' ty sz r v Hlt Hg Hty1 Hty2 Hre Hw IH];
    intros fuel Hf.
  - destruct fuel; cbn [attribute_loop];
      now rewrite (proj2 (Z.ltb_ge bytes_read ml)) by assumption.
  - destruct fuel as [| fuel]; [lia |].
    cbn [attribute_loop]. rewrite (proj2 (Z.ltb_lt bytes_read ml)) by assumption.
    rewrite Hg, Hre, attribute_switch_other by assumption.
    apply IH. apply getSingleAttribute_ok in Hg. lia.
Qed.

End Walk.

(** Decoding a packet returns or panics: the fuel of the walk is never
    used up and nothing in it waits. *)
Lemma decode_no_block (packet tid : list Z) : decode packet tid <> Block.
Proof.
  unfold decode, decode_body.
  destruct (reslice (slice_of packet) 0 20) as [header | |] eqn:Hh;
    cbn [exec_bind]; try discriminate.
  2: { unfold reslice in Hh. destruct (_ && _); discriminate. }
  destruct (reslice_from (slice_of packet) 20) as [body | |] eqn:Hb;
    cbn [exec_bind]; try discriminate.
  2: { unfold reslice_from in Hb. destruct (_ && _); discriminate. }
  assert (Hbody : forall data,
    (let* body0 := reslice body 0 (Message_length data) in
     if negb (Message_type data =? SUCCESS_RESPONSE)
     then Val (None, Some (Not_Success_Response (contents header) (contents body0)))
     else if negb (bytes_Equal (firstn 12 (Transaction_id data)) tid)
     then Val (None, Some (Unknown_Transaction_Id (firstn 12 (Transaction_id data)) tid))
     else match attribute_loop (Z.to_nat (Message_length data)) (Message_length data)
                  tid 0 body0 with
          | Some res => res
          | None => Block
          end)%exec <> (Block : exec addr_result)).
  { intros data.
    destruct (reslice body 0 (Message_length data)) as [body0 | |] eqn:Hr;
      cbn [exec_bind]; try discriminate.
    2: { unfold reslice in Hr. destruct (_ && _); discriminate. }
    destruct (negb _); [discriminate |].
    destruct (negb _); [discriminate |].
    destruct (attribute_loop _ _ _ _ _) as [res |] eqn:Hloop.
    - intros ->. revert Hloop. apply attribute_loop_no_block.
    - exfalso. revert Hloop. apply attribute_loop_fuel. lia. }
  destruct (binary_Read 20 (contents header)) as [bs | err]; [apply Hbody |].
  destruct err; try discriminate. apply Hbody.
Qed.

(** ** One run of the exported function *)

Section Run.

Variables (conn : UDPConn) (server : UDPAddr).

Implicit Types (rs : list (option (list Z))) (ws : list write_result)
  (rds : list read_result) (spare : nat) (tr : list event).

Lemma copy_same_length (dst src : list Z) :
  length dst = length src -> copy dst src = src.
Proof.
  intros H. unfold copy. rewrite firstn_all2, skipn_all2 by lia. apply app_nil_r.
Qed.

Lemma rand_Read_run (b bs : list Z) rs ws rds spare tr :
  rand_Read b (mkWorld (Some bs :: rs) ws rds spare tr)
  = (Val (inl (copy b bs)), mkWorld rs ws rds spare (Ev_rand :: tr)).
Proof. reflexivity. Qed.

Lemma rand_Read_fail (b : list Z) rs ws rds spare tr :
  rand_Read b (mkWorld (None :: rs) ws rds spare tr)
  = (Val (inr (os_error "entropy source")), mkWorld rs ws rds spare (Ev_rand :: tr)).
Proof. reflexivity. Qed.

Lemma send_loop_done (turns : nat) (msg : slice) (w : world) :
  send_loop turns conn server msg 0 w = (Val None, w).
Proof. destruct turns; reflexivity. Qed.

(** A header written whole by the first write. *)
Lemma sendMessage_one (header : list Z) rs ws rds spare tr :
  header <> [] ->
  sendMessage conn server header []
    (mkWorld rs (Write_ok (Z.of_nat (length header)) :: ws) rds spare tr)
  = (Val None, mkWorld rs ws rds spare (Ev_write header :: tr)).
Proof.
  intros Hne. unfold sendMessage.
  destruct header as [| b header']; [congruence |].
  set (header := b :: header') in *.
  change (length header =? 0)%nat with false. cbn iota.
  rewrite app_nil_r. cbn [write_results buffer_spare length send_loop].
  assert (Hsz : (Z.of_nat (length header) =? 0) = false)
    by (apply Z.eqb_neq; unfold header; cbn [length]; lia).
  rewrite Hsz. unfold io_bind, WriteToUDP. cbn [write_results].
  unfold io_lift. rewrite reslice_ok.
  - rewrite Z.sub_diag, send_loop_done. unfold log, contents.
    cbn [rand_results write_results read_results buffer_spare trace backing slen].
    now rewrite Nat2Z.id, firstn_app, Nat.sub_diag, firstn_all, app_nil_r.
  - unfold cap. cbn [backing]. rewrite length_app. lia.
  - lia.
Qed.

(** A datagram that is not empty ends the receive loop at once. *)
Lemma recvMessage_one (id raw : list Z) rs ws rds spare tr :
  raw <> [] ->
  recvMessage conn id (mkWorld rs ws (Read_ok raw :: rds) spare tr)
  = (decode (received raw) id, mkWorld rs ws rds spare (Ev_read :: tr)).
Proof.
  intros Hne. unfold recvMessage, received.
  set (packet := repeat 0 1280).
  cbn [read_results length receive_loop]. unfold io_bind, ReadFromUDP.
  cbv beta. cbn [read_results].
  assert (Hn : (0 <? Z.of_nat (Nat.min (length raw) (length packet))) = true).
  { apply Z.ltb_lt. destruct raw; [congruence |].
    unfold packet. rewrite repeat_length. cbn [length]. lia. }
  rewrite Hn. reflexivity.
Qed.

(** The exported function when the entropy source gives [id], the socket
    takes the request in one write and the first datagram read is [raw]. *)
Lemma RequestRemoteIPAndPort_run (id raw : list Z) rs ws rds spare tr :
  length id = 12%nat -> raw <> [] ->
  RequestRemoteIPAndPort (Some conn) (Some server)
    (mkWorld (Some id :: rs) (Write_ok 20 :: ws) (Read_ok raw :: rds) spare tr)
  = (match decode (received raw) id with
     | Val (_, Some err) => Val (None, Some err)
     | Val (addr, None) => Val (addr, None)
     | Panic => Panic
     | Block => Block
     end,
     mkWorld rs ws rds spare
       (Ev_read :: Ev_write (sample_header REQUEST 0 id) :: Ev_rand :: tr)).
Proof.
  intros Hid Hraw. unfold RequestRemoteIPAndPort.
  change (Z.to_nat (trans_id_size / 8)) with 12%nat.
  unfold io_bind at 1. rewrite rand_Read_run.
  rewrite copy_same_length by (now rewrite repeat_length).
  rewrite makeHeader_bytes. fold (sample_header REQUEST 0 id).
  assert (Hlen : Z.of_nat (length (sample_header REQUEST 0 id)) = 20)
    by (unfold sample_header; cbn [put_uint16 put_uint32 app length]; rewrite Hid;
        reflexivity).
  unfold io_bind at 1. rewrite <- Hlen at 1.
  rewrite sendMessage_one by (unfold sample_header; cbn; discriminate).
  unfold io_bind. rewrite recvMessage_one by assumption.
  destruct (decode (received raw) id) as [[addr [err |]] | |]; reflexivity.
Qed.

End Run.

(** ** A response without address attribute *)

Lemma header_transaction_id_12 (packet : list Z) :
  length packet = 1280%nat ->
  length (Transaction_id (header_of_bytes (firstn 20 packet))) = 12%nat.
Proof.
  intros H. cbn [header_of_bytes Transaction_id].
  rewrite length_firstn, length_skipn, length_firstn, H. reflexivity.
Qed.

(** C8.  No-address success: for every success response for which the
    attribute walk takes place (the declared length fits the buffer and
    the transaction id is the expected one) and comes to the end of the
    declared length without meeting a MAPPED-ADDRESS or
    XOR-MAPPED-ADDRESS attribute, decoding returns no address and no
    error, and so does the exported function when that response is the
    datagram it receives. *)
Theorem no_address_success (conn : UDPConn) (server : UDPAddr) (raw tid : list Z)
    (rs : list (option (list Z))) (ws : list write_result) (rds : list read_result)
    (spare : nat) (tr : list event) :
  let data := header_of_bytes (firstn 20 (received raw)) in
  Message_type data = SUCCESS_RESPONSE ->
  Transaction_id data = tid ->
  0 <= Message_length data <= 1260 ->
  walk_exhausts (Message_length data) 0
    (mkSlice (skipn 20 (received raw)) (Message_length data)) ->
  decode (received raw) tid = Val (None, None)
  /\ fst (RequestRemoteIPAndPort (Some conn) (Some server)
            (mkWorld (Some tid :: rs) (Write_ok 20 :: ws) (Read_ok raw :: rds) spare tr))
     = Val (None, None).
Proof.
  intros data Hty Hid HL Hwalk. pose proof (received_length raw) as Hlen.
  assert (Hdec : decode (received raw) tid = Val (None, None)).
  { rewrite decode_split by assumption. fold data.
    rewrite decode_body_walk.
    - cbn [backing].
      rewrite (attribute_loop_exhausts _ tid _ _ Hwalk); [reflexivity |].
      rewrite Z2Nat.id; lia.
    - unfold cap. cbn [backing]. rewrite length_skipn, Hlen. exact HL.
    - assumption.
    - unfold data. rewrite header_transaction_id_length by assumption. exact Hid.
  }
  split; [exact Hdec |].
  assert (Hraw : raw <> []).
  { intros ->. revert Hty. unfold data. vm_compute. discriminate. }
  rewrite RequestRemoteIPAndPort_run.
  - cbn [fst]. now rewrite Hdec.
  - rewrite <- Hid. now apply header_transaction_id_12.
  - assumption.
Qed.

Lemma no_address_success_witness :
  decode (received (sample_header SUCCESS_RESPONSE 8 sample_id
                      ++ [0x00; 0x06; 0x00; 0x04; 0x75; 0x73; 0x65; 0x72]))
         sample_id = Val (None, None)
  /\ fst (RequestRemoteIPAndPort (Some udp_conn) (Some (mkUDPAddr [192; 0; 2; 1] 3478))
            (mkWorld [Some sample_id] [Write_ok 20]
               [Read_ok (sample_header SUCCESS_RESPONSE 8 sample_id
                           ++ [0x00; 0x06; 0x00; 0x04; 0x75; 0x73; 0x65; 0x72])]
               44 []))
     = Val (None, None).
Proof.
  apply (no_address_success udp_conn (mkUDPAddr [192; 0; 2; 1] 3478)
           (sample_header SUCCESS_RESPONSE 8 sample_id
              ++ [0x00; 0x06; 0x00; 0x04; 0x75; 0x73; 0x65; 0x72])
           sample_id [] [] [] 44 []).
  - reflexivity.
  - reflexivity.
  - vm_compute. split; intro; discriminate.
  - eapply walk_skip.
    + reflexivity.
    + vm_compute. reflexivity.
    + vm_compute. discriminate.
    + vm_compute. discriminate.
    + vm_compute. reflexivity.
    + apply walk_done. vm_compute. discriminate.
Defined.

(** ** Null socket or server *)

(** C9, as the code has it.  For every call of the exported function
    with a null socket or a null server address the call fails before
    any transaction id is generated or any byte is sent or received (the
    environment is left as it was), with [Gen_Random_Error]: the very
    error the call returns when the entropy source fails, not an error
    kind of its own. *)
Theorem null_argument_rejected (conn : option UDPConn) (server : option UDPAddr)
    (w : world) :
  conn = None \/ server = None ->
  RequestRemoteIPAndPort conn server w = (Val (None, Some Gen_Random_Error), w)
  /\ forall c s rs ws rds spare tr,
       fst (RequestRemoteIPAndPort (Some c) (Some s) (mkWorld (None :: rs) ws rds spare tr))
       = Val (None, Some Gen_Random_Error).
Proof.
  intros H. split.
  - destruct H as [-> | ->]; [reflexivity |]. destruct conn; reflexivity.
  - reflexivity.
Qed.

Lemma null_argument_rejected_witness :
  RequestRemoteIPAndPort None (Some (mkUDPAddr [192; 0; 2; 1] 3478))
    (mkWorld [Some sample_id] [Write_ok 20] [] 44 [])
  = (Val (None, Some Gen_Random_Error), mkWorld [Some sample_id] [Write_ok 20] [] 44 []).
Proof.
  apply (null_argument_rejected None (Some (mkUDPAddr [192; 0; 2; 1] 3478))
           (mkWorld [Some sample_id] [Write_ok 20] [] 44 [])).
  left. reflexivity.
Defined.

(** C9 as stated fails: the error of a call with a null socket is of the
    kind of an entropy failure, not a configuration error. *)
Lemma null_argument_counterexample :
  exists e,
    fst (RequestRemoteIPAndPort None (Some (mkUDPAddr [192; 0; 2; 1] 3478))
           (mkWorld [Some sample_id] [Write_ok 20] [] 44 []))
    = Val (None, Some e)
    /\ kind_of e = RandomGenerationError
    /\ kind_of e <> ConfigurationError.
Proof.
  exists Gen_Random_Error. repeat split. discriminate.
Qed.

(** ** Datagrams shorter than a header *)

Section Short.

Lemma all_zero_repeat (n : nat) : all_zero (repeat 0 n).
Proof. induction n; constructor; auto. Qed.

Lemma all_zero_nth (l : list Z) (i : nat) : all_zero l -> nth i l 0 = 0.
Proof.
  intros H. revert i. induction H as [| b l Hb _ IH]; intros [| i]; cbn; auto.
Qed.

Lemma all_zero_firstn (l : list Z) (n : nat) : all_zero l -> all_zero (firstn n l).
Proof.
  intros H. revert n. induction H as [| b l Hb _ IH]; intros [| n]; cbn;
    try (constructor; fail).
  constructor; [exact Hb | apply IH].
Qed.

Lemma all_zero_skipn (l : list Z) (n : nat) : all_zero l -> all_zero (skipn n l).
Proof.
  intros H. revert n. induction H as [| b l Hb Hl IH]; intros [| n]; cbn.
  - constructor.
  - constructor.
  - now constructor.
  - apply IH.
Qed.

Lemma firstn_zeros (n m : nat) : firstn n (repeat 0 m) = repeat 0 (Nat.min n m).
Proof.
  revert m. induction n as [| n IH]; intros [| m]; cbn; try reflexivity.
  now rewrite IH.
Qed.

Lemma all_zero_eq (l : list Z) : all_zero l -> l = repeat 0 (length l).
Proof.
  induction 1 as [| b l Hb _ IH]; cbn; [reflexivity |]. now rewrite Hb, <- IH.
Qed.

Lemma reslice_from_backing (s s' : slice) (lo : Z) :
  reslice_from s lo = Val s' -> backing s' = skipn (Z.to_nat lo) (backing s).
Proof.
  unfold reslice_from. destruct (_ && _); [| discriminate]. now intros [= <-].
Qed.

Lemma reslice_backing (s s' : slice) (lo hi : Z) :
  reslice s lo hi = Val s' -> backing s' = skipn (Z.to_nat lo) (backing s).
Proof.
  unfold reslice. destruct (_ && _); [| discriminate]. now intros [= <-].
Qed.

(** Over zero bytes every attribute read has type 0 and length 0. *)
Lemma getSingleAttribute_zeros (body : slice) :
  all_zero (backing body) ->
  match getSingleAttribute body with
  | Val (ty, sz, _, _, _) => ty = 0 /\ sz = 0
  | _ => True
  end.
Proof.
  intros Hz. unfold getSingleAttribute.
  destruct (len body =? 0); [now split |].
  destruct (binary_Read 4 (contents body)) as [bs | err] eqn:Hrd; [| now split].
  apply binary_Read_inl in Hrd. destruct Hrd as [-> _].
  assert (Hbs : all_zero (firstn 4 (contents body)))
    by (unfold contents; now do 2 apply all_zero_firstn).
  rewrite !(all_zero_nth _ _ Hbs).
  change (int16_of (get_uint16 0 0)) with 0. cbn [Z.ltb Z.compare].
  destruct (reslice body 4 (add_int16 4 0)); cbn [exec_bind]; [now split | exact I | exact I].
Qed.

(** Over zero bytes the walk resolves no address. *)
Lemma attribute_loop_zeros (fuel : nat) (ml : Z) (tid : list Z) (bytes_read : Z)
    (body : slice) :
  all_zero (backing body) ->
  forall addr err,
    attribute_loop fuel ml tid bytes_read body <> Some (Val (Some addr, err)).
Proof.
  revert bytes_read body. induction fuel as [| fuel IH]; intros bytes_read body Hz addr err;
    cbn [attribute_loop]; destruct (bytes_read <? ml); try discriminate.
  pose proof (getSingleAttribute_zeros body Hz) as Hg.
  destruct (getSingleAttribute body) as [[[[[ty sz] v] r] e] | |]; try discriminate.
  destruct Hg as [-> ->].
  destruct (reslice_from body 0) as [body' | |] eqn:Hre; try discriminate.
  destruct e; [discriminate |].
  change (attribute_switch 0 v tid) with Continue. cbv iota.
  apply IH. rewrite (reslice_from_backing _ _ _ Hre). now apply all_zero_skipn.
Qed.

(** The buffer after a short datagram: the datagram, zeros up to 20
    bytes, and a body of zeros. *)
Lemma received_short_header (raw : list Z) :
  (length raw <= 20)%nat ->
  firstn 20 (received raw) = raw ++ repeat 0 (20 - length raw)
  /\ skipn 20 (received raw) = repeat 0 1260.
Proof.
  intros H. rewrite received_short by lia.
  replace (1280 - length raw)%nat with ((20 - length raw) + 1260)%nat by lia.
  rewrite repeat_app, app_assoc.
  assert (Hl : length (raw ++ repeat 0 (20 - length raw)) = 20%nat)
    by (rewrite length_app, repeat_length; lia).
  split.
  - rewrite firstn_app, Hl, Nat.sub_diag, firstn_O, app_nil_r.
    rewrite <- Hl at 1. apply firstn_all.
  - rewrite skipn_app, Hl, Nat.sub_diag, skipn_O.
    rewrite <- Hl at 1. now rewrite skipn_all.
Qed.

End Short.

(** C3, as the code has it.  A datagram shorter than 20 bytes is not
    refused for its length: the header is the first 20 bytes of the
    zero-filled receive buffer, so decoding gives what it gives for the
    datagram padded with zero bytes to 20 bytes; it resolves no address;
    and when the padded type field is not 0x0101 and the padded length
    field is between 0 and 1260 it fails with [Not_Success_Response]
    carrying the padded header and a body of zeros. *)
Theorem short_datagram (raw tid : list Z) :
  (length raw < 20)%nat ->
  decode (received raw) tid
    = decode (received (raw ++ repeat 0 (20 - length raw))) tid
  /\ (forall addr err, decode (received raw) tid <> Val (Some addr, err))
  /\ (let data := header_of_bytes (raw ++ repeat 0 (20 - length raw)) in
      Message_type data <> SUCCESS_RESPONSE ->
      0 <= Message_length data <= 1260 ->
      decode (received raw) tid =
      Val (None, Some (Not_Success_Response (raw ++ repeat 0 (20 - length raw))
                         (repeat 0 (Z.to_nat (Message_length data)))))).
Proof.
  intros Hshort.
  pose proof (received_length raw) as Hlen.
  destruct (received_short_header raw) as [Hhd Hbd]; [lia |].
  split; [| split].
  - f_equal. rewrite !received_short by (rewrite ?length_app, ?repeat_length; lia).
    rewrite length_app, repeat_length, <- app_assoc, <- repeat_app.
    do 2 f_equal. lia.
  - intros addr err. rewrite decode_split by assumption. rewrite Hbd.
    unfold decode_body.
    destruct (reslice _ 0 _) as [body' | |] eqn:Hre; cbn [exec_bind]; try discriminate.
    destruct (negb _); [discriminate |].
    destruct (negb _); [discriminate |].
    destruct (attribute_loop _ _ _ _ _) as [res |] eqn:Hloop; [| discriminate].
    intros ->. revert Hloop. apply attribute_loop_zeros.
    rewrite (reslice_backing _ _ _ _ Hre). cbn [backing].
    apply all_zero_skipn, all_zero_repeat.
  - intros data Hty HL. rewrite decode_split by assumption. rewrite Hhd, Hbd.
    fold data. rewrite decode_body_not_success.
    + unfold contents. cbn [backing slen]. change (Z.to_nat 20) with 20%nat.
      rewrite Hhd. rewrite firstn_zeros. rewrite Nat.min_l by lia. reflexivity.
    + unfold cap. cbn [backing]. rewrite repeat_length. exact HL.
    + assumption.
Qed.

Lemma short_datagram_witness :
  decode (received [0x01]) sample_id
  = Val (None, Some (Not_Success_Response ([0x01] ++ repeat 0 19) [])).
Proof.
  refine (proj2 (proj2 (short_datagram [0x01] sample_id _)) _ _).
  - cbn. lia.
  - vm_compute. discriminate.
  - vm_compute. split; intro; discriminate.
Defined.

(** C3 as stated fails: a datagram of one byte is answered with
    [Not_Success_Response], which is not an attribute parse error, and a
    datagram of the two bytes 01 01, when the expected transaction id is
    all zeros, decodes with no error at all. *)
Lemma short_datagram_counterexample :
  (length [0x01] < 20)%nat
  /\ (exists header body,
        decode (received [0x01]) sample_id
          = Val (None, Some (Not_Success_Response header body))
        /\ kind_of (Not_Success_Response header body) <> AttributeParseError)
  /\ decode (received [0x01; 0x01]) (repeat 0 12) = Val (None, None).
Proof.
  split; [cbn; lia |]. split.
  - exists ([0x01] ++ repeat 0 19), []. split; [vm_compute; reflexivity | discriminate].
  - vm_compute. reflexivity.
Qed.

(** ** Reading and skipping one attribute *)

Section Skip.

(** An attribute whose four header bytes and whose value lie in the
    buffer is read whole: the value is the [L] bytes after the header. *)
Lemma getSingleAttribute_read (t0 t1 l0 l1 : Z) (rest : list Z) (n : Z) :
  let L := int16_of (get_uint16 l0 l1) in
  4 <= n -> 0 <= L -> L <= Z.of_nat (length rest) -> 4 + L < 32768 ->
  getSingleAttribute (mkSlice (t0 :: t1 :: l0 :: l1 :: rest) n)
  = Val (int16_of (get_uint16 t0 t1), L, firstn (Z.to_nat L) rest, 4 + L, None).
Proof.
  intros L Hn HL0 HL Hwrap. unfold getSingleAttribute, len, contents.
  cbn [slen backing].
  rewrite (proj2 (Z.eqb_neq n 0)) by lia.
  assert (Hc : firstn (Z.to_nat n) (t0 :: t1 :: l0 :: l1 :: rest)
               = t0 :: t1 :: l0 :: l1 :: firstn (Z.to_nat n - 4) rest).
  { replace (Z.to_nat n) with (4 + (Z.to_nat n - 4))%nat at 1 by lia. reflexivity. }
  rewrite Hc. cbn [binary_Read length Nat.leb firstn nth]. fold L.
  rewrite (proj2 (Z.ltb_ge L 0)) by lia.
  unfold add_int16. rewrite int16_of_small by (unfold is_int16; lia).
  rewrite reslice_ok by (unfold cap; cbn [backing length]; lia).
  cbn [exec_bind]. change (Z.to_nat 4) with 4%nat. cbn [backing skipn slen].
  replace (4 + L - 4) with L by lia.
  rewrite copy_same_length by (rewrite repeat_length, length_firstn; lia).
  reflexivity.
Qed.

(** One turn of the loop over an attribute that is not an address
    attribute: [bytes_read] grows by [4 + L], and the body by which the
    next attribute is read starts [L] bytes, not [4 + L] bytes, after the
    start of the attribute skipped. *)
Lemma attribute_loop_skip (fuel : nat) (ml : Z) (tid : list Z) (bytes_read : Z)
    (t0 t1 l0 l1 : Z) (rest : list Z) (n : Z) :
  let L := int16_of (get_uint16 l0 l1) in
  let ty := int16_of (get_uint16 t0 t1) in
  bytes_read < ml -> 4 <= n -> 0 <= L <= n ->
  L <= Z.of_nat (length rest) -> 4 + L < 32768 ->
  ty <> MAPPED_ADDRESS -> ty <> XOR_MAPPED_ADDRESS ->
  attribute_loop (S fuel) ml tid bytes_read (mkSlice (t0 :: t1 :: l0 :: l1 :: rest) n)
  = attribute_loop fuel ml tid (bytes_read + (4 + L))
      (mkSlice (skipn (Z.to_nat L) (t0 :: t1 :: l0 :: l1 :: rest)) (n - L)).
Proof.
  intros L ty Hlt Hn HL Hrest Hwrap Hty1 Hty2. cbn [attribute_loop].
  rewrite (proj2 (Z.ltb_lt bytes_read ml)) by assumption.
  rewrite getSingleAttribute_read by (fold L; lia). fold L. fold ty.
  rewrite reslice_from_ok by (unfold len; cbn [slen]; lia).
  now rewrite attribute_switch_other by assumption.
Qed.

(** An attribute that declares more value bytes than the whole of what is
    left of the body is answered by a panic, not by an error. *)
Lemma attribute_loop_truncated (fuel : nat) (ml : Z) (tid : list Z) (bytes_read : Z)
    (t0 t1 l0 l1 : Z) (rest : list Z) (n : Z) :
  let L := int16_of (get_uint16 l0 l1) in
  bytes_read < ml -> 4 <= n -> n < L ->
  attribute_loop (S fuel) ml tid bytes_read (mkSlice (t0 :: t1 :: l0 :: l1 :: rest) n)
  = Some Panic.
Proof.
  intros L Hlt Hn HL. cbn [attribute_loop].
  rewrite (proj2 (Z.ltb_lt bytes_read ml)) by assumption.
  unfold getSingleAttribute, len, contents. cbn [slen backing].
  rewrite (proj2 (Z.eqb_neq n 0)) by lia.
  replace (Z.to_nat n) with (4 + (Z.to_nat n - 4))%nat by lia.
  cbn [Nat.add firstn binary_Read length Nat.leb nth]. fold L.
  rewrite (proj2 (Z.ltb_ge L 0)) by lia.
  unfold reslice. destruct (_ && _); cbn [exec_bind]; [| reflexivity].
  now rewrite reslice_from_panic by (unfold len; cbn [slen]; lia).
Qed.

(** A body that is exactly one attribute other than an address attribute
    is walked to its end. *)
Lemma walk_exhausts_single (t0 t1 l0 l1 : Z) (rest : list Z) :
  let L := int16_of (get_uint16 l0 l1) in
  let ty := int16_of (get_uint16 t0 t1) in
  0 <= L -> L <= Z.of_nat (length rest) -> 4 + L < 32768 ->
  ty <> MAPPED_ADDRESS -> ty <> XOR_MAPPED_ADDRESS ->
  walk_exhausts (4 + L) 0 (mkSlice (t0 :: t1 :: l0 :: l1 :: rest) (4 + L)).
Proof.
  intros L ty HL Hrest Hwrap Hty1 Hty2.
  eapply walk_skip with (attr_type := ty) (attr_size := L) (r := 4 + L).
  - lia.
  - apply getSingleAttribute_read; fold L; lia.
  - assumption.
  - assumption.
  - apply reslice_from_ok. unfold len. cbn [slen]. lia.
  - apply walk_done. lia.
Qed.

End Skip.

(** C1 fails on the code.  A success response with the expected
    transaction id that holds the sample XOR-MAPPED-ADDRESS attribute
    alone resolves the address; with a USERNAME attribute of four bytes
    before it, the walk resumes at the value of USERNAME instead of
    after it: it panics when the value is the text user, and returns no
    address when the value is four zero bytes or is empty. *)
Theorem skip_then_address_not_resolved :
  decode (received (sample_header SUCCESS_RESPONSE 12 sample_id ++ sample_xor_attribute))
         sample_id
  = Val (Some sample_address, None)
  /\ decode (received (sample_header SUCCESS_RESPONSE 20 sample_id
                         ++ [0x00; 0x06; 0x00; 0x04; 0x75; 0x73; 0x65; 0x72]
                         ++ sample_xor_attribute))
            sample_id
     = Panic
  /\ decode (received (sample_header SUCCESS_RESPONSE 20 sample_id
                         ++ [0x00; 0x06; 0x00; 0x04; 0x00; 0x00; 0x00; 0x00]
                         ++ sample_xor_attribute))
            sample_id
     = Val (None, None)
  /\ decode (received (sample_header SUCCESS_RESPONSE 16 sample_id
                         ++ [0x00; 0x06; 0x00; 0x00] ++ sample_xor_attribute))
            sample_id
     = Val (None, None).
Proof. repeat split; vm_compute; reflexivity. Qed.

(** C2 fails on the code.  An XOR-MAPPED-ADDRESS attribute that declares
    8 value bytes in a body of 8 bytes (4 are left after its header) is
    decoded without error, its address taken from the 4 bytes of the
    buffer after the declared body; a USERNAME attribute that declares 8
    value bytes in a body of 4 bytes, and an attribute that declares 2000
    value bytes, panic on a slice bound out of range. *)
Theorem truncated_attribute_not_rejected :
  decode (received (sample_header SUCCESS_RESPONSE 8 sample_id
                      ++ [0x00; 0x20; 0x00; 0x08; 0x00; 0x01; 0x11; 0x2B]
                      ++ [0xEA; 0x12; 0xD5; 0x47]))
         sample_id
  = Val (Some sample_address, None)
  /\ decode (received (sample_header SUCCESS_RESPONSE 4 sample_id
                         ++ [0x00; 0x06; 0x00; 0x08]))
            sample_id
     = Panic
  /\ decode (received (sample_header SUCCESS_RESPONSE 12 sample_id
                         ++ [0x00; 0x20; 0x07; 0xD0; 0x00; 0x01; 0x11; 0x2B;
                             0xEA; 0x12; 0xD5; 0x47]))
            sample_id
     = Panic.
Proof. repeat split; vm_compute; reflexivity. Qed.

(** ** The address parsers *)

(** C7, as the code has it.  For every attribute value of at least 4
    bytes whose family byte is neither 0x01 nor 0x02, the
    XOR-MAPPED-ADDRESS parser returns neither an error nor an address;
    the MAPPED-ADDRESS parser does not look at the family and returns
    the address made of the bytes from the fifth on, with the port of
    bytes 2 and 3. *)
Theorem unsupported_family (value tid : list Z) :
  (4 <= length value)%nat ->
  nth 1 value 0 <> 0x01 -> nth 1 value 0 <> 0x02 ->
  get_addr_XOR value tid = (None, None)
  /\ get_addr value
     = (Some (mkUDPAddr (skipn 4 value) (get_uint16 (nth 2 value 0) (nth 3 value 0))),
        None).
Proof.
  intros Hlen H1 H2.
  destruct value as [| b0 [| b1 [| b2 [| b3 rest]]]]; cbn in Hlen; try lia.
  cbn [nth] in H1, H2. split.
  - unfold get_addr_XOR.
    cbn [length Nat.eqb binary_Read Nat.leb firstn nth binary_Write].
    now rewrite (proj2 (Z.eqb_neq _ _) H1), (proj2 (Z.eqb_neq _ _) H2).
  - reflexivity.
Qed.

Lemma unsupported_family_witness :
  get_addr_XOR [0x00; 0x03; 0x00; 0x50; 192; 0; 2; 1] sample_id = (None, None)
  /\ get_addr [0x00; 0x03; 0x00; 0x50; 192; 0; 2; 1]
     = (Some (mkUDPAddr [192; 0; 2; 1] 80), None).
Proof.
  apply (unsupported_family [0x00; 0x03; 0x00; 0x50; 192; 0; 2; 1] sample_id).
  - cbn. lia.
  - cbn. discriminate.
  - cbn. discriminate.
Defined.

(** C7 as stated fails: with the family byte 0x03 the MAPPED-ADDRESS
    parser returns an address, and on a value of three bytes the
    XOR-MAPPED-ADDRESS parser returns an error. *)
Lemma unsupported_family_counterexample :
  nth 1 [0x00; 0x03; 0x00; 0x50; 192; 0; 2; 1] 0 <> 0x01
  /\ nth 1 [0x00; 0x03; 0x00; 0x50; 192; 0; 2; 1] 0 <> 0x02
  /\ get_addr [0x00; 0x03; 0x00; 0x50; 192; 0; 2; 1]
     = (Some (mkUDPAddr [192; 0; 2; 1] 80), None)
  /\ get_addr_XOR [0x00; 0x03; 0x00] sample_id = (None, Some io_ErrUnexpectedEOF).
Proof. repeat split; cbn; discriminate. Qed.

Section Empty.

(** The buffer after a datagram made of a header and what follows it. *)
Lemma received_parts (header tail : list Z) :
  length header = 20%nat -> (length tail <= 1260)%nat ->
  firstn 20 (received (header ++ tail)) = header
  /\ skipn 20 (received (header ++ tail)) = tail ++ repeat 0 (1260 - length tail).
Proof.
  intros Hh Ht. rewrite received_short by (rewrite length_app; lia).
  rewrite length_app, Hh, <- app_assoc. split.
  - rewrite firstn_app, Hh, Nat.sub_diag, firstn_O, app_nil_r.
    rewrite <- Hh. apply firstn_all.
  - rewrite skipn_app, Hh, Nat.sub_diag, skipn_O.
    rewrite <- Hh at 1. rewrite skipn_all. cbn [app].
    f_equal.
Qed.

(** An address attribute of declared length 0 at the start of the body
    ends the decoding with the error of the parsers. *)
Lemma decode_empty_address (header rest tid : list Z) (ty : Z) :
  length header = 20%nat -> (length rest <= 1256)%nat ->
  Message_type (header_of_bytes header) = SUCCESS_RESPONSE ->
  Transaction_id (header_of_bytes header) = tid ->
  4 <= Message_length (header_of_bytes header) <= 1260 ->
  ty = MAPPED_ADDRESS \/ ty = XOR_MAPPED_ADDRESS ->
  decode (received (header ++ [0x00; ty; 0x00; 0x00] ++ rest)) tid
  = Val (None, Some (errors_New "STUN Client: Empty attribute recieved")).
Proof.
  intros Hh Hr Hty Hid HL Hattr.
  set (raw := header ++ [0x00; ty; 0x00; 0x00] ++ rest).
  pose proof (received_length raw) as Hlen.
  destruct (received_parts header ([0x00; ty; 0x00; 0x00] ++ rest)) as [Hhd Hbd];
    [assumption | cbn [app length]; lia |].
  fold raw in Hhd, Hbd.
  rewrite decode_split by assumption. rewrite Hhd, Hbd.
  rewrite decode_body_walk.
  - cbn [backing app].
    destruct (Z.to_nat (Message_length (header_of_bytes header))) as [| fuel] eqn:Hfuel;
      [lia |].
    cbn [attribute_loop].
    rewrite (proj2 (Z.ltb_lt 0 _)) by lia.
    rewrite getSingleAttribute_read;
      change (int16_of (get_uint16 0 0)) with 0; try lia.
    rewrite reslice_from_ok by (unfold len; cbn [slen]; lia).
    destruct Hattr as [-> | ->]; reflexivity.
  - unfold cap. cbn [backing]. rewrite length_app, repeat_length. cbn [app length]. lia.
  - assumption.
  - rewrite <- Hid. cbn [header_of_bytes Transaction_id]. now rewrite firstn_firstn.
Qed.

End Empty.

(** C10.  Empty attribute value: called with a value of length zero, the
    MAPPED-ADDRESS parser and the XOR-MAPPED-ADDRESS parser each return
    an error and no address; and a success response with the expected
    transaction id whose first attribute is an address attribute of
    declared length zero is decoded to that error, not to the result
    without address and without error. *)
Theorem empty_attribute_error (tid : list Z) :
  get_addr [] = (None, Some (errors_New "STUN Client: Empty attribute recieved"))
  /\ get_addr_XOR [] tid
     = (None, Some (errors_New "STUN Client: Empty attribute recieved"))
  /\ forall (header rest : list Z) (ty : Z),
       length header = 20%nat -> (length rest <= 1256)%nat ->
       Message_type (header_of_bytes header) = SUCCESS_RESPONSE ->
       Transaction_id (header_of_bytes header) = tid ->
       4 <= Message_length (header_of_bytes header) <= 1260 ->
       ty = MAPPED_ADDRESS \/ ty = XOR_MAPPED_ADDRESS ->
       decode (received (header ++ [0x00; ty; 0x00; 0x00] ++ rest)) tid
       = Val (None, Some (errors_New "STUN Client: Empty attribute recieved")).
Proof.
  split; [reflexivity |]. split; [reflexivity |].
  intros header rest ty. apply decode_empty_address.
Qed.

Lemma empty_attribute_error_witness :
  decode (received (sample_header SUCCESS_RESPONSE 4 sample_id
                      ++ [0x00; XOR_MAPPED_ADDRESS; 0x00; 0x00] ++ []))
         sample_id
  = Val (None, Some (errors_New "STUN Client: Empty attribute recieved")).
Proof.
  apply (proj2 (proj2 (empty_attribute_error sample_id))
           (sample_header SUCCESS_RESPONSE 4 sample_id) [] XOR_MAPPED_ADDRESS).
  - reflexivity.
  - cbn. lia.
  - reflexivity.
  - reflexivity.
  - vm_compute. split; intro; discriminate.
  - right. reflexivity.
Defined.

(** * Further properties of the package *)

(** ** [xor_bytes] *)

(** X1.  Applying [xor_bytes] twice with the same second slice gives the
    first slice back, whatever the two lengths. *)
Theorem xor_bytes_involutive (one two : list Z) :
  xor_bytes (xor_bytes one two) two = one.
Proof.
  revert two. induction one as [| a one IH]; intros [| b two]; cbn; try reflexivity.
  now rewrite lxor_cancel, IH.
Qed.

Lemma xor_bytes_length (one two : list Z) :
  length (xor_bytes one two) = length one.
Proof.
  revert two. induction one as [| a one IH]; intros [| b two]; cbn; try reflexivity.
  now rewrite IH.
Qed.

(** X2.  [xor_bytes] keeps the length of its first slice; byte [i] of the
    result is the XOR of the two bytes [i] while [i] is within the
    second slice, and the byte of the first slice from there on. *)
Theorem xor_bytes_bytes (one two : list Z) (i : nat) :
  (i < length one)%nat ->
  length (xor_bytes one two) = length one
  /\ nth i (xor_bytes one two) 0 =
     if (i <? length two)%nat then Z.lxor (nth i one 0) (nth i two 0) else nth i one 0.
Proof.
  intros Hi. split; [apply xor_bytes_length |].
  revert two i Hi. induction one as [| a one IH]; intros two i Hi; cbn in Hi; [lia |].
  destruct two as [| b two]; [reflexivity |].
  destruct i as [| i]; [reflexivity |].
  cbn [xor_bytes nth length]. rewrite IH by lia. reflexivity.
Qed.

Lemma xor_bytes_bytes_witness :
  length (xor_bytes [1; 2; 3; 4; 5; 6] [0x21; 0x12; 0xA4; 0x42]) = 6%nat
  /\ nth 5 (xor_bytes [1; 2; 3; 4; 5; 6] [0x21; 0x12; 0xA4; 0x42]) 0 = 6.
Proof.
  apply (xor_bytes_bytes [1; 2; 3; 4; 5; 6] [0x21; 0x12; 0xA4; 0x42] 5).
  cbn. lia.
Defined.

(** ** [makeHeader] *)

(** X3.  [makeHeader] never fails: for all arguments it returns 8 bytes
    (type, length and cookie, big-endian, each a byte) followed by the
    transaction id as it is, whatever its length. *)
Theorem makeHeader_never_fails (message_type message_length magic_cookie : Z)
    (transaction_id : list Z) :
  exists header,
    makeHeader message_type message_length magic_cookie transaction_id = inl header
    /\ length header = (8 + length transaction_id)%nat
    /\ skipn 8 header = transaction_id
    /\ Forall is_byte (firstn 8 header).
Proof.
  eexists. split; [apply makeHeader_bytes |]. unfold put_uint16, put_uint32.
  cbn [app length skipn firstn]. repeat split.
  repeat constructor; apply byte_of_range.
Qed.

(** ** [getSingleAttribute] *)

Section Attribute.

Lemma contents_length (s : slice) :
  0 <= len s <= cap s -> Z.of_nat (length (contents s)) = len s.
Proof.
  unfold len, cap, contents. intros H. rewrite length_firstn. lia.
Qed.


End Attribute.

(** X4.  On a body of fewer than 4 bytes [getSingleAttribute] returns an
    error with type 0, size 0, no value and 0 bytes read: the error of
    the empty body when the body is empty, [io.ErrUnexpectedEOF] when it
    holds 1 to 3 bytes. *)
Theorem getSingleAttribute_short_body (body : slice) :
  0 <= len body <= cap body -> len body < 4 ->
  getSingleAttribute body =
  Val (0, 0, [], 0,
       Some (if len body =? 0 then errors_New "Cannot parse empty body."
             else io_ErrUnexpectedEOF)).
Proof.
  intros Hb H4. pose proof (contents_length body Hb) as Hc.
  unfold getSingleAttribute. destruct (Z.eqb_spec (len body) 0) as [H0 | H0];
    [reflexivity |].
  rewrite binary_Read_short by lia. reflexivity.
Qed.

Lemma getSingleAttribute_short_body_witness :
  getSingleAttribute (mkSlice [0x00; 0x20; 0x00; 0x08; 0x00; 0x01] 3)
  = Val (0, 0, [], 0, Some io_ErrUnexpectedEOF).
Proof.
  apply (getSingleAttribute_short_body (mkSlice [0x00; 0x20; 0x00; 0x08; 0x00; 0x01] 3)).
  - cbn. lia.
  - cbn. lia.
Defined.



(** ** The address parsers, further *)

(** X6.  On a value of 1 to 3 bytes both address parsers return
    [io.ErrUnexpectedEOF] and no address. *)
Theorem address_value_too_short (value tid : list Z) :
  (0 < length value < 4)%nat ->
  get_addr value = (None, Some io_ErrUnexpectedEOF)
  /\ get_addr_XOR value tid = (None, Some io_ErrUnexpectedEOF).
Proof.
  intros H. destruct value as [| b0 [| b1 [| b2 [| b3 rest]]]]; cbn in H; try lia;
    split; reflexivity.
Qed.

Lemma address_value_too_short_witness :
  get_addr [0x00; 0x01; 0x30] = (None, Some io_ErrUnexpectedEOF)
  /\ get_addr_XOR [0x00; 0x01; 0x30] sample_id = (None, Some io_ErrUnexpectedEOF).
Proof.
  apply (address_value_too_short [0x00; 0x01; 0x30] sample_id). cbn. lia.
Defined.

(** X7.  The MAPPED-ADDRESS parser reads a value laid out as a reserved
    byte, a family byte, the port in two bytes big-endian and the
    address: it returns the address bytes as they are and the port, for
    every family byte and every length of the address, the empty one
    included. *)
Theorem get_addr_layout (reserved family port : Z) (ip : list Z) :
  is_uint16 port ->
  get_addr ([reserved; family] ++ put_uint16 port ++ ip)
  = (Some (mkUDPAddr ip port), None).
Proof.
  intros Hp. unfold get_addr, put_uint16.
  cbn [app length Nat.eqb binary_Read Nat.leb firstn nth skipn].
  rewrite put_get_uint16. unfold is_uint16 in Hp. now rewrite Z.mod_small by lia.
Qed.

Lemma get_addr_layout_witness :
  get_addr ([0x00; 0x01] ++ put_uint16 3478 ++ [192; 0; 2; 1])
  = (Some (mkUDPAddr [192; 0; 2; 1] 3478), None).
Proof.
  apply (get_addr_layout 0x00 0x01 3478 [192; 0; 2; 1]). unfold is_uint16. lia.
Defined.

(** X8.  Neither address parser checks the length of the address
    against the family: whenever one of them returns an address, it
    returns no error with it, the value has at least 4 bytes, and the
    address returned has 4 bytes fewer than the value. *)
Theorem address_length_unchecked (value tid : list Z) (a : UDPAddr) (e : option error) :
  get_addr value = (Some a, e) \/ get_addr_XOR value tid = (Some a, e) ->
  e = None /\ (4 <= length value)%nat /\ length (IP a) = (length value - 4)%nat.
Proof.
  intros H.
  destruct value as [| b0 [| b1 [| b2 [| b3 rest]]]];
    try (destruct H as [H | H]; discriminate H).
  destruct H as [H | H].
  - unfold get_addr in H.
    cbn [length Nat.eqb binary_Read Nat.leb firstn nth skipn] in H.
    injection H as <- <-. cbn [IP length]. repeat split; lia.
  - unfold get_addr_XOR in H.
    cbn [length Nat.eqb binary_Read Nat.leb firstn nth skipn binary_Write] in H.
    destruct (b1 =? 1); [| destruct (b1 =? 2); [| discriminate]];
      injection H as <- <-; cbn [IP length]; rewrite xor_bytes_length;
      repeat split; lia.
Qed.

Lemma address_length_unchecked_witness :
  None = (None : option error)
  /\ (4 <= length [0x00; 0x01; 0x11; 0x2B; 0xEA; 0x12; 0xD5; 0x47; 0x09; 0x09])%nat
  /\ length (IP (mkUDPAddr [203; 0; 113; 5; 0x09; 0x09] 12345))
     = (length [0x00; 0x01; 0x11; 0x2B; 0xEA; 0x12; 0xD5; 0x47; 0x09; 0x09] - 4)%nat.
Proof.
  apply (address_length_unchecked
           [0x00; 0x01; 0x11; 0x2B; 0xEA; 0x12; 0xD5; 0x47; 0x09; 0x09] sample_id
           (mkUDPAddr [203; 0; 113; 5; 0x09; 0x09] 12345) None).
  right. reflexivity.
Defined.

(** X9.  When the value holds bytes, the port either parser returns is a
    16-bit value. *)
Theorem address_port_range (value tid : list Z) (a : UDPAddr) (e : option error) :
  Forall is_byte value ->
  get_addr value = (Some a, e) \/ get_addr_XOR value tid = (Some a, e) ->
  is_uint16 (Port a).
Proof.
  intros Hb H.
  destruct value as [| b0 [| b1 [| b2 [| b3 rest]]]];
    try (destruct H as [H | H]; discriminate H).
  assert (Hx : is_uint16 (get_uint16 b2 b3)).
  { apply get_uint16_range.
    - exact (Forall_inv (Forall_inv_tail (Forall_inv_tail Hb))).
    - exact (Forall_inv (Forall_inv_tail (Forall_inv_tail (Forall_inv_tail Hb)))). }
  destruct H as [H | H].
  - unfold get_addr in H.
    cbn [length Nat.eqb binary_Read Nat.leb firstn nth skipn] in H.
    injection H as <- <-. exact Hx.
  - unfold get_addr_XOR in H.
    cbn [length Nat.eqb binary_Read Nat.leb firstn nth skipn binary_Write] in H.
    change (Z.shiftr MAGIC_COOKIE 16 mod 65536) with 0x2112 in H.
    assert (Hp : is_uint16 (Z.lxor (get_uint16 b2 b3) 0x2112))
      by (apply lxor_uint16; [exact Hx | unfold is_uint16; lia]).
    destruct (b1 =? 1); [| destruct (b1 =? 2); [| discriminate]];
      injection H as <- <-; exact Hp.
Qed.

Lemma address_port_range_witness :
  is_uint16 (Port (mkUDPAddr [203; 0; 113; 5] 12345)).
Proof.
  apply (address_port_range [0x00; 0x01; 0x11; 0x2B; 0xEA; 0x12; 0xD5; 0x47] sample_id
           (mkUDPAddr [203; 0; 113; 5] 12345) None).
  - repeat constructor; unfold is_byte; lia.
  - right. reflexivity.
Defined.

(** ** Decoding an accepted response *)

Section Accepted.

Lemma sample_header_length (ty ml : Z) (id : list Z) :
  length id = 12%nat -> length (sample_header ty ml id) = 20%nat.
Proof.
  intros H. unfold sample_header, put_uint16, put_uint32. cbn [app length].
  now rewrite H.
Qed.

Lemma header_of_sample (ty ml : Z) (id : list Z) :
  is_int16 ty -> is_int16 ml -> length id = 12%nat ->
  header_of_bytes (sample_header ty ml id) = mkHeader ty ml MAGIC_COOKIE id.
Proof.
  intros Hty Hml Hid. unfold sample_header.
  rewrite <- (app_nil_r id) at 1.
  apply header_of_bytes_put; try assumption. unfold is_int32, MAGIC_COOKIE. lia.
Qed.

(** A success response with the expected transaction id and a declared
    length within the buffer is decoded by the attribute walk over the
    bytes after the header, followed by the zeros of the buffer. *)
Lemma decode_walk_start (header tail tid : list Z) :
  length header = 20%nat -> (length tail <= 1260)%nat ->
  Message_type (header_of_bytes header) = SUCCESS_RESPONSE ->
  Transaction_id (header_of_bytes header) = tid ->
  0 <= Message_length (header_of_bytes header) <= 1260 ->
  decode (received (header ++ tail)) tid =
  match attribute_loop (Z.to_nat (Message_length (header_of_bytes header)))
          (Message_length (header_of_bytes header)) tid 0
          (mkSlice (tail ++ repeat 0 (1260 - length tail))
             (Message_length (header_of_bytes header))) with
  | Some res => res
  | None => Block
  end.
Proof.
  intros Hh Ht Hty Hid HL.
  pose proof (received_length (header ++ tail)) as Hlen.
  destruct (received_parts header tail Hh Ht) as [Hhd Hbd].
  rewrite decode_split by assumption. rewrite Hhd, Hbd.
  rewrite decode_body_walk; [reflexivity | | assumption |].
  - unfold cap. cbn [backing]. rewrite length_app, repeat_length. lia.
  - rewrite <- Hid. cbn [header_of_bytes Transaction_id]. now rewrite firstn_firstn.
Qed.

(** The first turn of the walk over an address attribute whose value
    lies in the buffer returns what the parser of its type returns. *)
Lemma attribute_loop_address (fuel : nat) (ml : Z) (tid : list Z) (bytes_read : Z)
    (t0 t1 l0 l1 : Z) (rest : list Z) (n : Z) :
  let L := int16_of (get_uint16 l0 l1) in
  let ty := int16_of (get_uint16 t0 t1) in
  bytes_read < ml -> 4 <= n -> 0 <= L <= n ->
  L <= Z.of_nat (length rest) -> 4 + L < 32768 ->
  ty = MAPPED_ADDRESS \/ ty = XOR_MAPPED_ADDRESS ->
  attribute_loop (S fuel) ml tid bytes_read (mkSlice (t0 :: t1 :: l0 :: l1 :: rest) n)
  = Some (Val (if ty =? MAPPED_ADDRESS then get_addr (firstn (Z.to_nat L) rest)
               else get_addr_XOR (firstn (Z.to_nat L) rest) tid)).
Proof.
  intros L ty Hlt Hn HL Hrest Hwrap Hty. cbn [attribute_loop].
  rewrite (proj2 (Z.ltb_lt bytes_read ml)) by assumption.
  rewrite getSingleAttribute_read by (fold L; lia). fold L. fold ty.
  rewrite reslice_from_ok by (unfold len; cbn [slen]; lia).
  destruct Hty as [-> | ->]; reflexivity.
Qed.

Lemma length_from_bytes (n : nat) :
  (n <= 1260)%nat ->
  int16_of (get_uint16 (byte_of (Z.shiftr (Z.of_nat n) 8)) (byte_of (Z.of_nat n)))
  = Z.of_nat n.
Proof.
  intros H. rewrite put_get_uint16. apply int16_of_mod. unfold is_int16. lia.
Qed.

(** The decoding of a response whose first attribute is an address
    attribute declaring the length of its value. *)
Lemma decode_first_address (header value rest tid : list Z) (ty : Z) :
  length header = 20%nat -> (length value + length rest <= 1256)%nat ->
  Message_type (header_of_bytes header) = SUCCESS_RESPONSE ->
  Transaction_id (header_of_bytes header) = tid ->
  4 <= Message_length (header_of_bytes header) <= 1260 ->
  Z.of_nat (length value) <= Message_length (header_of_bytes header) ->
  ty = MAPPED_ADDRESS \/ ty = XOR_MAPPED_ADDRESS ->
  decode (received (header ++ [0x00; ty] ++ put_uint16 (Z.of_nat (length value))
                      ++ value ++ rest)) tid
  = Val (if ty =? MAPPED_ADDRESS then get_addr value else get_addr_XOR value tid).
Proof.
  intros Hh Hlen Hty Hid HL Hv Hattr.
  rewrite decode_walk_start; try assumption; try lia.
  2: { unfold put_uint16. cbn [app length]. rewrite length_app. lia. }
  unfold put_uint16. cbn [app].
  destruct (Z.to_nat (Message_length (header_of_bytes header))) as [| fuel] eqn:Hfuel;
    [lia |].
  pose proof (length_from_bytes (length value)) as HLen.
  assert (Hty' : int16_of (get_uint16 0 ty) = ty) by (destruct Hattr as [-> | ->]; reflexivity).
  rewrite attribute_loop_address; rewrite ?HLen, ?Hty'; try lia; try assumption.
  - rewrite Nat2Z.id, <- app_assoc, firstn_app, Nat.sub_diag, firstn_all.
    cbn [firstn]. now rewrite app_nil_r.
  - rewrite !length_app. lia.
Qed.

(** What [get_addr_XOR] makes of the XOR encoding of an address. *)
Lemma get_addr_XOR_encoded (family port : Z) (ip T : list Z) :
  length T = 12%nat -> is_uint16 port ->
  (family = 0x01 /\ length ip = 4%nat) \/ (family = 0x02 /\ length ip = 16%nat) ->
  get_addr_XOR (spec_xor_encode family ip port T) T = (Some (mkUDPAddr ip port), None).
Proof.
  intros HT Hport Hfam.
  assert (Hx : is_uint16 (Z.lxor port 0x2112))
    by (apply lxor_uint16; [assumption | unfold is_uint16; lia]).
  unfold get_addr_XOR, spec_xor_encode.
  cbn [app length Nat.eqb binary_Read Nat.leb firstn nth skipn binary_Write].
  rewrite get_uint16_split by assumption.
  change (Z.shiftr MAGIC_COOKIE 16 mod 65536) with 0x2112.
  rewrite lxor_cancel.
  change (put_uint32 MAGIC_COOKIE) with spec_cookie_bytes.
  destruct Hfam as [[-> Hip] | [-> Hip]]; cbn [Z.eqb Pos.eqb spec_xor_mask];
    rewrite xor_bytes_spec_xor by (rewrite Hip, ?length_app, ?HT; cbn; lia);
    reflexivity.
Qed.

Lemma spec_xor_encode_length (family port : Z) (ip T : list Z) :
  length T = 12%nat ->
  (family = 0x01 /\ length ip = 4%nat) \/ (family = 0x02 /\ length ip = 16%nat) ->
  length (spec_xor_encode family ip port T) = (4 + length ip)%nat.
Proof.
  intros HT Hfam. unfold spec_xor_encode, spec_xor_bytewise. cbn [app length].
  rewrite length_map, length_combine.
  destruct Hfam as [[-> Hip] | [-> Hip]]; cbn [Z.eqb Pos.eqb spec_xor_mask];
    rewrite ?length_app, ?HT, Hip; reflexivity.
Qed.

End Accepted.

(** X10.  An address attribute at the start of the body ends the
    decoding at once: for a success response with the expected
    transaction id, a declared message length between 4 and 1260 and a
    first attribute of type MAPPED-ADDRESS or XOR-MAPPED-ADDRESS whose
    declared length is the length of its value and is within the message
    length, decoding returns what the parser of that type returns on the
    value, whatever follows the attribute. *)
Theorem address_attribute_first (header value rest tid : list Z) (ty : Z) :
  length header = 20%nat -> (length value + length rest <= 1256)%nat ->
  Message_type (header_of_bytes header) = SUCCESS_RESPONSE ->
  Transaction_id (header_of_bytes header) = tid ->
  4 <= Message_length (header_of_bytes header) <= 1260 ->
  Z.of_nat (length value) <= Message_length (header_of_bytes header) ->
  ty = MAPPED_ADDRESS \/ ty = XOR_MAPPED_ADDRESS ->
  decode (received (header ++ [0x00; ty] ++ put_uint16 (Z.of_nat (length value))
                      ++ value ++ rest)) tid
  = Val (if ty =? MAPPED_ADDRESS then get_addr value else get_addr_XOR value tid).
Proof. apply decode_first_address. Qed.

Lemma address_attribute_first_witness :
  decode (received (sample_header SUCCESS_RESPONSE 24 sample_id
                      ++ [0x00; MAPPED_ADDRESS] ++ put_uint16 8
                      ++ [0x00; 0x01; 0x0D; 0x96; 192; 0; 2; 1]
                      ++ sample_xor_attribute)) sample_id
  = Val (get_addr [0x00; 0x01; 0x0D; 0x96; 192; 0; 2; 1]).
Proof.
  apply (address_attribute_first (sample_header SUCCESS_RESPONSE 24 sample_id)
           [0x00; 0x01; 0x0D; 0x96; 192; 0; 2; 1] sample_xor_attribute sample_id
           MAPPED_ADDRESS).
  - reflexivity.
  - cbn. lia.
  - reflexivity.
  - reflexivity.
  - vm_compute. split; intro; discriminate.
  - vm_compute. intro; discriminate.
  - left. reflexivity.
Defined.

(** X11.  End to end: when the datagram read is a success response that
    echoes the transaction id drawn for the request and whose first
    attribute is the XOR-MAPPED-ADDRESS encoding of an IPv4 or IPv6
    address and port, decoding, and with it the exported function,
    return that address and port without error, whatever follows the
    attribute. *)
Theorem xor_response_resolves (conn : UDPConn) (server : UDPAddr)
    (family port ml : Z) (ip id rest : list Z)
    (rs : list (option (list Z))) (ws : list write_result) (rds : list read_result)
    (spare : nat) (tr : list event) :
  length id = 12%nat -> is_uint16 port ->
  (family = 0x01 /\ length ip = 4%nat) \/ (family = 0x02 /\ length ip = 16%nat) ->
  4 + Z.of_nat (length ip) <= ml <= 1260 ->
  (4 + length ip + length rest <= 1256)%nat ->
  let value := spec_xor_encode family ip port id in
  let raw := sample_header SUCCESS_RESPONSE ml id
               ++ [0x00; XOR_MAPPED_ADDRESS] ++ put_uint16 (Z.of_nat (length value))
               ++ value ++ rest in
  decode (received raw) id = Val (Some (mkUDPAddr ip port), None)
  /\ fst (RequestRemoteIPAndPort (Some conn) (Some server)
            (mkWorld (Some id :: rs) (Write_ok 20 :: ws) (Read_ok raw :: rds) spare tr))
     = Val (Some (mkUDPAddr ip port), None).
Proof.
  intros Hid Hport Hfam Hml Hrest value raw.
  pose proof (spec_xor_encode_length family port ip id Hid Hfam) as Hlen.
  fold value in Hlen.
  assert (Hhdr : header_of_bytes (sample_header SUCCESS_RESPONSE ml id)
                 = mkHeader SUCCESS_RESPONSE ml MAGIC_COOKIE id)
    by (apply header_of_sample; unfold is_int16, SUCCESS_RESPONSE; try lia; assumption).
  assert (Hdec : decode (received raw) id = Val (Some (mkUDPAddr ip port), None)).
  { unfold raw. rewrite decode_first_address with (ty := XOR_MAPPED_ADDRESS).
    - change (XOR_MAPPED_ADDRESS =? MAPPED_ADDRESS) with false. cbv iota.
      unfold value. now rewrite get_addr_XOR_encoded.
    - now apply sample_header_length.
    - lia.
    - now rewrite Hhdr.
    - now rewrite Hhdr.
    - rewrite Hhdr. cbn [Message_length]. lia.
    - rewrite Hhdr. cbn [Message_length]. lia.
    - now right. }
  split; [exact Hdec |].
  rewrite RequestRemoteIPAndPort_run; [| assumption |].
  - cbn [fst]. now rewrite Hdec.
  - unfold raw, sample_header, put_uint16. cbn [app]. discriminate.
Qed.

Lemma xor_response_resolves_witness :
  decode (received (sample_header SUCCESS_RESPONSE 12 sample_id
                      ++ [0x00; XOR_MAPPED_ADDRESS]
                      ++ put_uint16 (Z.of_nat (length
                           (spec_xor_encode 0x01 [203; 0; 113; 5] 12345 sample_id)))
                      ++ spec_xor_encode 0x01 [203; 0; 113; 5] 12345 sample_id ++ []))
         sample_id
  = Val (Some (mkUDPAddr [203; 0; 113; 5] 12345), None)
  /\ fst (RequestRemoteIPAndPort (Some udp_conn) (Some (mkUDPAddr [192; 0; 2; 1] 3478))
            (mkWorld [Some sample_id] [Write_ok 20]
               [Read_ok (sample_header SUCCESS_RESPONSE 12 sample_id
                           ++ [0x00; XOR_MAPPED_ADDRESS]
                           ++ put_uint16 (Z.of_nat (length
                                (spec_xor_encode 0x01 [203; 0; 113; 5] 12345 sample_id)))
                           ++ spec_xor_encode 0x01 [203; 0; 113; 5] 12345 sample_id ++ [])]
               44 []))
     = Val (Some (mkUDPAddr [203; 0; 113; 5] 12345), None).
Proof.
  apply (xor_response_resolves udp_conn (mkUDPAddr [192; 0; 2; 1] 3478)
           0x01 12345 12 [203; 0; 113; 5] sample_id [] [] [] [] 44 []).
  - reflexivity.
  - unfold is_uint16. lia.
  - left. split; reflexivity.
  - cbn. lia.
  - cbn. lia.
Defined.

(** ** Attributes that are skipped *)

Section Stall.

(** A walk that starts at an attribute of declared length 0 that is not
    an address attribute reads that attribute again at every turn. *)
Lemma attribute_loop_zero_length (t0 t1 l0 l1 : Z) (rest tid : list Z) (n ml : Z) :
  int16_of (get_uint16 l0 l1) = 0 ->
  int16_of (get_uint16 t0 t1) <> MAPPED_ADDRESS ->
  int16_of (get_uint16 t0 t1) <> XOR_MAPPED_ADDRESS ->
  4 <= n ->
  forall fuel bytes_read, ml - bytes_read <= Z.of_nat fuel ->
  attribute_loop fuel ml tid bytes_read (mkSlice (t0 :: t1 :: l0 :: l1 :: rest) n)
  = Some (Val (None, None)).
Proof.
  intros HL Hty1 Hty2 Hn. induction fuel as [| fuel IH]; intros bytes_read Hf.
  - cbn [attribute_loop]. now rewrite (proj2 (Z.ltb_ge bytes_read ml)) by lia.
  - destruct (Z.lt_ge_cases bytes_read ml) as [Hlt | Hge].
    + rewrite attribute_loop_skip; rewrite ?HL; try assumption; try lia.
      change (Z.to_nat 0) with 0%nat. cbn [skipn]. rewrite Z.sub_0_r.
      apply IH. lia.
    + cbn [attribute_loop]. now rewrite (proj2 (Z.ltb_ge bytes_read ml)) by lia.
Qed.

(** A negative declared length makes the walk panic. *)
Lemma attribute_loop_negative (fuel : nat) (ml : Z) (tid : list Z) (bytes_read : Z)
    (t0 t1 l0 l1 : Z) (rest : list Z) (n : Z) :
  bytes_read < ml -> 4 <= n -> int16_of (get_uint16 l0 l1) < 0 ->
  attribute_loop (S fuel) ml tid bytes_read (mkSlice (t0 :: t1 :: l0 :: l1 :: rest) n)
  = Some Panic.
Proof.
  intros Hlt Hn HL. cbn [attribute_loop].
  rewrite (proj2 (Z.ltb_lt bytes_read ml)) by assumption.
  unfold getSingleAttribute, len, contents. cbn [slen backing].
  rewrite (proj2 (Z.eqb_neq n 0)) by lia.
  replace (Z.to_nat n) with (4 + (Z.to_nat n - 4))%nat by lia.
  cbn [Nat.add firstn binary_Read length Nat.leb nth].
  now rewrite (proj2 (Z.ltb_lt _ 0)) by assumption.
Qed.

End Stall.

(** X12.  An attribute of declared length 0 that is not an address
    attribute hides all that follows it: the body is advanced by 0 bytes,
    so the same attribute is read until the count of bytes read reaches
    the message length, and a success response with the expected id
    that starts with such an attribute is decoded to no address and no
    error, whatever attributes follow. *)
Theorem zero_length_attribute_hides_rest (header rest tid : list Z) (t0 t1 : Z) :
  length header = 20%nat -> (length rest <= 1256)%nat ->
  Message_type (header_of_bytes header) = SUCCESS_RESPONSE ->
  Transaction_id (header_of_bytes header) = tid ->
  4 <= Message_length (header_of_bytes header) <= 1260 ->
  int16_of (get_uint16 t0 t1) <> MAPPED_ADDRESS ->
  int16_of (get_uint16 t0 t1) <> XOR_MAPPED_ADDRESS ->
  decode (received (header ++ [t0; t1; 0x00; 0x00] ++ rest)) tid = Val (None, None).
Proof.
  intros Hh Hr Hty Hid HL Hty1 Hty2.
  rewrite decode_walk_start; try assumption; try lia.
  2: { cbn [app length]. lia. }
  cbn [app]. rewrite attribute_loop_zero_length; try assumption; try reflexivity; lia.
Qed.

Lemma zero_length_attribute_hides_rest_witness :
  decode (received (sample_header SUCCESS_RESPONSE 16 sample_id
                      ++ [0x00; 0x06; 0x00; 0x00] ++ sample_xor_attribute))
         sample_id
  = Val (None, None).
Proof.
  apply (zero_length_attribute_hides_rest (sample_header SUCCESS_RESPONSE 16 sample_id)
           sample_xor_attribute sample_id 0x00 0x06).
  - reflexivity.
  - cbn. lia.
  - reflexivity.
  - reflexivity.
  - vm_compute. split; intro; discriminate.
  - vm_compute. discriminate.
  - vm_compute. discriminate.
Defined.

(** X13.  One turn of the attribute loop over an attribute that is not
    an address attribute and whose value lies in the buffer: the count
    of bytes read grows by 4 plus the declared length [L], and the walk
    goes on with the body advanced by [L] bytes from the start of that
    attribute. *)
Theorem skipped_attribute_step (fuel : nat) (ml : Z) (tid : list Z) (bytes_read : Z)
    (t0 t1 l0 l1 : Z) (rest : list Z) (n : Z) :
  let L := int16_of (get_uint16 l0 l1) in
  let ty := int16_of (get_uint16 t0 t1) in
  bytes_read < ml -> 4 <= n -> 0 <= L <= n ->
  L <= Z.of_nat (length rest) -> 4 + L < 32768 ->
  ty <> MAPPED_ADDRESS -> ty <> XOR_MAPPED_ADDRESS ->
  attribute_loop (S fuel) ml tid bytes_read (mkSlice (t0 :: t1 :: l0 :: l1 :: rest) n)
  = attribute_loop fuel ml tid (bytes_read + (4 + L))
      (mkSlice (skipn (Z.to_nat L) (t0 :: t1 :: l0 :: l1 :: rest)) (n - L)).
Proof. apply attribute_loop_skip. Qed.

Lemma skipped_attribute_step_witness :
  attribute_loop 2 8 sample_id 0 (mkSlice [0x00; 0x06; 0x00; 0x04; 0x75; 0x73; 0x65; 0x72] 8)
  = attribute_loop 1 8 sample_id (0 + (4 + 4))
      (mkSlice (skipn (Z.to_nat 4) [0x00; 0x06; 0x00; 0x04; 0x75; 0x73; 0x65; 0x72]) (8 - 4)).
Proof.
  apply (skipped_attribute_step 1 8 sample_id 0 0x00 0x06 0x00 0x04
           [0x75; 0x73; 0x65; 0x72] 8).
  - lia.
  - lia.
  - vm_compute. split; intro; discriminate.
  - vm_compute. intro; discriminate.
  - vm_compute. reflexivity.
  - vm_compute. discriminate.
  - vm_compute. discriminate.
Defined.

(** X14.  No declared attribute length is refused with an error: in a
    success response with the expected id, a first attribute whose
    declared length is negative as a 16-bit signed value, or exceeds the
    message length, makes the decoding panic, whatever the type of the
    attribute. *)
Theorem oversized_attribute_panics (header rest tid : list Z) (t0 t1 l0 l1 : Z) :
  length header = 20%nat -> (length rest <= 1256)%nat ->
  Message_type (header_of_bytes header) = SUCCESS_RESPONSE ->
  Transaction_id (header_of_bytes header) = tid ->
  4 <= Message_length (header_of_bytes header) <= 1260 ->
  int16_of (get_uint16 l0 l1) < 0
  \/ Message_length (header_of_bytes header) < int16_of (get_uint16 l0 l1) ->
  decode (received (header ++ [t0; t1; l0; l1] ++ rest)) tid = Panic.
Proof.
  intros Hh Hr Hty Hid HL Hbad.
  rewrite decode_walk_start; try assumption; try lia.
  2: { cbn [app length]. lia. }
  cbn [app].
  destruct (Z.to_nat (Message_length (header_of_bytes header))) as [| fuel] eqn:Hfuel;
    [lia |].
  destruct Hbad as [Hneg | Hbig].
  - rewrite attribute_loop_negative; try assumption; try lia. reflexivity.
  - rewrite attribute_loop_truncated; try assumption; try lia. reflexivity.
Qed.

Lemma oversized_attribute_panics_witness :
  decode (received (sample_header SUCCESS_RESPONSE 12 sample_id
                      ++ [0x00; 0x20; 0xFF; 0xF8]
                      ++ [0x00; 0x01; 0x11; 0x2B; 0xEA; 0x12; 0xD5; 0x47]))
         sample_id
  = Panic.
Proof.
  apply (oversized_attribute_panics (sample_header SUCCESS_RESPONSE 12 sample_id)
           [0x00; 0x01; 0x11; 0x2B; 0xEA; 0x12; 0xD5; 0x47] sample_id
           0x00 0x20 0xFF 0xF8).
  - reflexivity.
  - cbn. lia.
  - reflexivity.
  - reflexivity.
  - vm_compute. split; intro; discriminate.
  - left. vm_compute. reflexivity.
Defined.

(** X15.  A declared message length that is negative as a 16-bit signed
    value, or exceeds the 1260 bytes the receive buffer holds after the
    header, makes the decoding panic before the message type or the
    transaction id is looked at. *)
Theorem message_length_unchecked (raw tid : list Z) :
  Message_length (header_of_bytes (firstn 20 (received raw))) < 0
  \/ 1260 < Message_length (header_of_bytes (firstn 20 (received raw))) ->
  decode (received raw) tid = Panic.
Proof. apply decode_length_out_of_range. Qed.

Lemma message_length_unchecked_witness :
  decode (received (sample_header ERROR_RESPONSE 0xFFFF other_id)) sample_id = Panic.
Proof.
  apply (message_length_unchecked (sample_header ERROR_RESPONSE 0xFFFF other_id) sample_id).
  left. vm_compute. reflexivity.
Defined.

(** ** What a decoding returns *)

Section Results.

Lemma get_addr_not_both (value : list Z) (a : UDPAddr) (e : error) :
  get_addr value <> (Some a, Some e).
Proof.
  unfold get_addr. destruct (length value =? 0)%nat; [discriminate |].
  destruct (binary_Read 4 value); discriminate.
Qed.

Lemma get_addr_XOR_not_both (value tid : list Z) (a : UDPAddr) (e : error) :
  get_addr_XOR value tid <> (Some a, Some e).
Proof.
  unfold get_addr_XOR. destruct (length value =? 0)%nat; [discriminate |].
  destruct (binary_Read 4 value) as [bs | err]; [| discriminate].
  cbn [binary_Write]. destruct (nth 1 bs 0 =? 1); [discriminate |].
  destruct (nth 1 bs 0 =? 2); discriminate.
Qed.

Lemma attribute_switch_not_both (ty : Z) (v tid : list Z) (a : UDPAddr) (e : error) :
  attribute_switch ty v tid <> Return (Some a, Some e).
Proof.
  unfold attribute_switch.
  destruct (ty =? MAPPED_ADDRESS);
    [intros [= H]; now apply get_addr_not_both in H |].
  destruct (ty =? XOR_MAPPED_ADDRESS);
    [intros [= H]; now apply get_addr_XOR_not_both in H |].
  repeat match goal with |- context [if ?c then _ else _] => destruct c end;
    discriminate.
Qed.

Lemma attribute_loop_not_both (fuel : nat) (ml : Z) (tid : list Z) (bytes_read : Z)
    (body : slice) (a : UDPAddr) (e : error) :
  attribute_loop fuel ml tid bytes_read body <> Some (Val (Some a, Some e)).
Proof.
  revert bytes_read body. induction fuel as [| fuel IH]; intros bytes_read body;
    cbn [attribute_loop]; destruct (bytes_read <? ml); try discriminate.
  destruct (getSingleAttribute body) as [[[[[ty sz] v] r] err] | |]; try discriminate.
  destruct (reslice_from body sz) as [body' | |]; try discriminate.
  destruct err; [discriminate |].
  destruct (attribute_switch ty v tid) as [res |] eqn:Hs; [| apply IH].
  intros [= ->]. revert Hs. apply attribute_switch_not_both.
Qed.

(** With the message type of a success response, the decoding uses the
    header only through its length field and its transaction id. *)
Lemma decode_body_success (header header' body : slice) (data data' : header_data)
    (tid : list Z) :
  Message_type data = SUCCESS_RESPONSE ->
  Message_type data' = SUCCESS_RESPONSE ->
  Message_length data = Message_length data' ->
  Transaction_id data = Transaction_id data' ->
  decode_body header body data tid = decode_body header' body data' tid.
Proof.
  intros Hty Hty' HL Hid. unfold decode_body.
  rewrite Hty, Hty', <- HL, <- Hid. rewrite Z.eqb_refl. cbn [negb].
  destruct (reslice body 0 (Message_length data)); reflexivity.
Qed.

End Results.

(** X16.  Decoding a packet never returns an address together with an
    error: it panics, or returns an address alone, an error alone, or
    neither. *)
Theorem decode_address_or_error (packet tid : list Z) (a : UDPAddr) (e : error) :
  decode packet tid <> Val (Some a, Some e).
Proof.
  unfold decode, decode_body.
  destruct (reslice (slice_of packet) 0 20) as [header | |]; cbn [exec_bind];
    try discriminate.
  destruct (reslice_from (slice_of packet) 20) as [body | |]; cbn [exec_bind];
    try discriminate.
  assert (Hbody : forall data,
    (let* body0 := reslice body 0 (Message_length data) in
     if negb (Message_type data =? SUCCESS_RESPONSE)
     then Val (None, Some (Not_Success_Response (contents header) (contents body0)))
     else if negb (bytes_Equal (firstn 12 (Transaction_id data)) tid)
     then Val (None, Some (Unknown_Transaction_Id (firstn 12 (Transaction_id data)) tid))
     else match attribute_loop (Z.to_nat (Message_length data)) (Message_length data)
                  tid 0 body0 with
          | Some res => res
          | None => Block
          end)%exec <> Val (Some a, Some e)).
  { intros data.
    destruct (reslice body 0 (Message_length data)) as [body0 | |]; cbn [exec_bind];
      try discriminate.
    destruct (negb _); [discriminate |].
    destruct (negb _); [discriminate |].
    destruct (attribute_loop _ _ _ _ _) as [res |] eqn:Hloop; [| discriminate].
    intros ->. revert Hloop. apply attribute_loop_not_both. }
  destruct (binary_Read 20 (contents header)) as [bs | err]; [apply Hbody |].
  destruct err; try discriminate. apply Hbody.
Qed.

(** X17.  The magic cookie of a response is not checked: two datagrams
    that differ only in bytes 4 to 7 and have the message type of a
    success response are decoded to the same result. *)
Theorem cookie_not_checked (pre cookie cookie' rest tid : list Z) :
  length pre = 4%nat -> length cookie = 4%nat -> length cookie' = 4%nat ->
  Message_type (header_of_bytes (firstn 20 (received (pre ++ cookie ++ rest))))
    = SUCCESS_RESPONSE ->
  decode (received (pre ++ cookie ++ rest)) tid
  = decode (received (pre ++ cookie' ++ rest)) tid.
Proof.
  intros Hp Hc Hc' Hty.
  destruct pre as [| p0 [| p1 [| p2 [| p3 [| ? ?]]]]]; try discriminate Hp.
  destruct cookie as [| c0 [| c1 [| c2 [| c3 [| ? ?]]]]]; try discriminate Hc.
  destruct cookie' as [| d0 [| d1 [| d2 [| d3 [| ? ?]]]]]; try discriminate Hc'.
  cbn [app] in *.
  assert (Hrcv : forall x0 x1 x2 x3,
    received (p0 :: p1 :: p2 :: p3 :: x0 :: x1 :: x2 :: x3 :: rest)
    = p0 :: p1 :: p2 :: p3 :: x0 :: x1 :: x2 :: x3
        :: (firstn 1272 rest ++ skipn (8 + length rest) (repeat 0 1280))).
  { intros. unfold received, copy. rewrite repeat_length.
    change 1280%nat with (8 + 1272)%nat at 1. reflexivity. }
  rewrite Hrcv in Hty. rewrite !Hrcv.
  set (T := firstn 1272 rest ++ skipn (8 + length rest) (repeat 0 1280)) in *.
  assert (HT : forall x0 x1 x2 x3,
    length (p0 :: p1 :: p2 :: p3 :: x0 :: x1 :: x2 :: x3 :: T) = 1280%nat).
  { intros. rewrite <- (Hrcv x0 x1 x2 x3). apply received_length. }
  rewrite !decode_split by apply HT.
  apply decode_body_success; try assumption; reflexivity.
Qed.

Lemma cookie_not_checked_witness :
  decode (received ([0x01; 0x01; 0x00; 0x0C] ++ [0x21; 0x12; 0xA4; 0x42]
                      ++ sample_id ++ sample_xor_attribute)) sample_id
  = decode (received ([0x01; 0x01; 0x00; 0x0C] ++ [0x00; 0x00; 0x00; 0x00]
                        ++ sample_id ++ sample_xor_attribute)) sample_id.
Proof.
  apply (cookie_not_checked [0x01; 0x01; 0x00; 0x0C] [0x21; 0x12; 0xA4; 0x42]
           [0x00; 0x00; 0x00; 0x00] (sample_id ++ sample_xor_attribute) sample_id).
  - reflexivity.
  - reflexivity.
  - reflexivity.
  - vm_compute. reflexivity.
Defined.

(** ** The socket: reads, writes and failures *)

Section Socket.

Variables (conn : UDPConn) (server : UDPAddr).

Implicit Types (rs : list (option (list Z))) (ws : list write_result)
  (rds : list read_result) (spare : nat) (tr : list event).

Lemma repeat_shift {A} (x : A) (n : nat) (l : list A) :
  repeat x n ++ x :: l = x :: repeat x n ++ l.
Proof. induction n as [| n IH]; cbn; [reflexivity | now rewrite IH]. Qed.

Lemma copy_nil (packet : list Z) : copy packet [] = packet.
Proof. unfold copy. now rewrite firstn_nil. Qed.

(** Reads of zero bytes are read again until a datagram comes. *)
Lemma receive_loop_retries (k : nat) (raw : list Z) rs ws rds spare :
  raw <> [] ->
  forall turns packet tr, (k < turns)%nat -> packet <> [] ->
  receive_loop turns conn packet
    (mkWorld rs ws (repeat (Read_ok []) k ++ Read_ok raw :: rds) spare tr)
  = (Val (inl (copy packet raw)),
     mkWorld rs ws rds spare (repeat Ev_read (S k) ++ tr)).
Proof.
  intros Hraw. induction k as [| k IH]; intros turns packet tr Hk Hp;
    (destruct turns as [| turns]; [lia |]); cbn [receive_loop repeat app];
    unfold io_bind, ReadFromUDP; cbv beta; cbn [read_results].
  - assert (Hn : (0 <? Z.of_nat (Nat.min (length raw) (length packet))) = true).
    { apply Z.ltb_lt. destruct raw; [congruence |]. destruct packet; [congruence |].
      cbn [length]. lia. }
    rewrite Hn. reflexivity.
  - cbn [length Nat.min Z.of_nat Z.ltb Z.compare]. rewrite copy_nil.
    unfold log. cbn [rand_results write_results read_results buffer_spare trace].
    rewrite IH by (assumption || lia). now rewrite repeat_shift.
Qed.

(** With nothing but reads of zero bytes the loop waits for ever. *)
Lemma receive_loop_waits (k : nat) rs ws spare :
  forall turns packet tr,
  fst (receive_loop turns conn packet (mkWorld rs ws (repeat (Read_ok []) k) spare tr))
  = Block.
Proof.
  induction k as [| k IH]; intros turns packet tr;
    (destruct turns as [| turns]; [reflexivity |]); cbn [receive_loop repeat];
    unfold io_bind, ReadFromUDP; cbv beta; cbn [read_results]; [reflexivity |].
  cbn [length Nat.min Z.of_nat Z.ltb Z.compare]. rewrite copy_nil. apply IH.
Qed.

Lemma sendMessage_write_error (header : list Z) (msg : string) rs ws rds spare tr :
  header <> [] ->
  sendMessage conn server header []
    (mkWorld rs (Write_error msg :: ws) rds spare tr)
  = (Val (Some (net_write_error msg)), mkWorld rs ws rds spare (Ev_write header :: tr)).
Proof.
  intros Hne. unfold sendMessage.
  destruct header as [| b header']; [congruence |].
  set (header := b :: header') in *.
  change (length header =? 0)%nat with false. cbn iota.
  rewrite app_nil_r. cbn [write_results buffer_spare length send_loop].
  assert (Hsz : (Z.of_nat (length header) =? 0) = false)
    by (apply Z.eqb_neq; unfold header; cbn [length]; lia).
  rewrite Hsz. unfold io_bind, WriteToUDP. cbn [write_results].
  unfold io_ret, log, contents.
  cbn [rand_results write_results read_results buffer_spare trace backing slen].
  now rewrite Nat2Z.id, firstn_app, Nat.sub_diag, firstn_all, app_nil_r.
Qed.

Lemma recvMessage_read_error (id : list Z) (msg : string) rs ws rds spare tr :
  recvMessage conn id (mkWorld rs ws (Read_error msg :: rds) spare tr)
  = (Val (None, Some (net_read_error msg)), mkWorld rs ws rds spare (Ev_read :: tr)).
Proof. reflexivity. Qed.

(** A write that takes only [n] bytes of the message is followed by a
    write of the rest of the buffer up to its capacity. *)
Lemma sendMessage_partial (header body : list Z) (n : Z) (msg : string)
    rs ws rds spare tr :
  header <> [] -> 0 <= n < Z.of_nat (length (header ++ body)) ->
  sendMessage conn server header body
    (mkWorld rs (Write_ok n :: Write_error msg :: ws) rds spare tr)
  = (Val (Some (net_write_error msg)),
     mkWorld rs ws rds spare
       (Ev_write (skipn (Z.to_nat n) (header ++ body) ++ repeat 0 spare)
          :: Ev_write (header ++ body) :: tr)).
Proof.
  intros Hne Hn. unfold sendMessage.
  destruct header as [| b header']; [congruence |].
  set (message := (b :: header') ++ body) in *.
  change (length (b :: header') =? 0)%nat with false. cbn iota.
  cbn [write_results buffer_spare length send_loop].
  rewrite (proj2 (Z.eqb_neq (Z.of_nat (length message)) 0)) by lia.
  unfold io_bind at 1. unfold WriteToUDP at 1. cbn [write_results].
  unfold io_bind at 1. unfold io_lift.
  rewrite reslice_ok by (unfold cap; cbn [backing]; rewrite ?length_app; lia).
  rewrite (proj2 (Z.eqb_neq (Z.of_nat (length message) - n) 0)) by lia.
  unfold io_bind, WriteToUDP, log.
  cbn [rand_results write_results read_results buffer_spare trace].
  unfold io_ret, contents, cap. cbn [backing slen].
  rewrite Nat2Z.id, firstn_app, Nat.sub_diag, firstn_all. cbn [firstn].
  rewrite app_nil_r.
  rewrite firstn_all2 by (rewrite length_skipn, !length_app, repeat_length; lia).
  rewrite skipn_app.
  replace (Z.to_nat n - length message)%nat with 0%nat by lia.
  reflexivity.
Qed.

End Socket.

(** X18.  [recvMessage] reads again after every read of zero bytes: with
    [k] such reads before a datagram that is not empty, it makes [k+1]
    reads and decodes that datagram; with reads of zero bytes only it
    never returns. *)
Theorem zero_byte_reads_retried (conn : UDPConn) (id raw : list Z) (k : nat)
    (rs : list (option (list Z))) (ws : list write_result) (rds : list read_result)
    (spare : nat) (tr : list event) :
  raw <> [] ->
  recvMessage conn id
    (mkWorld rs ws (repeat (Read_ok []) k ++ Read_ok raw :: rds) spare tr)
  = (decode (received raw) id, mkWorld rs ws rds spare (repeat Ev_read (S k) ++ tr))
  /\ fst (recvMessage conn id (mkWorld rs ws (repeat (Read_ok []) k) spare tr)) = Block.
Proof.
  intros Hraw. split.
  - unfold recvMessage, io_bind. cbn [read_results].
    rewrite receive_loop_retries; try assumption.
    + reflexivity.
    + rewrite length_app, repeat_length. cbn [length]. lia.
    + discriminate.
  - unfold recvMessage, io_bind. cbn [read_results].
    pose proof (receive_loop_waits conn k rs ws spare
                  (length (repeat (Read_ok []) k)) (repeat 0 1280) tr) as H.
    destruct (receive_loop _ _ _ _) as [[r | |] w']; cbn [fst] in H |- *;
      try discriminate; reflexivity.
Qed.

Lemma zero_byte_reads_retried_witness :
  recvMessage udp_conn sample_id
    (mkWorld [] [] (repeat (Read_ok []) 2 ++ Read_ok [0x01] :: []) 0 [])
  = (decode (received [0x01]) sample_id,
     mkWorld [] [] [] 0 (repeat Ev_read 3 ++ []))
  /\ fst (recvMessage udp_conn sample_id (mkWorld [] [] (repeat (Read_ok []) 2) 0 []))
     = Block.
Proof.
  apply (zero_byte_reads_retried udp_conn sample_id [0x01] 2 [] [] [] 0 []).
  discriminate.
Defined.

(** X19.  The exported function stops at the first failure: when the
    entropy source fails it returns [Gen_Random_Error] and neither
    writes nor reads; when the write of the request fails it returns the
    error of the write and does not read; when the read fails it returns
    the error of the read.  No address comes with any of them. *)
Theorem call_stops_at_failure (conn : UDPConn) (server : UDPAddr) (id : list Z)
    (msg : string) (rs : list (option (list Z))) (ws : list write_result)
    (rds : list read_result) (spare : nat) (tr : list event) :
  length id = 12%nat ->
  RequestRemoteIPAndPort (Some conn) (Some server) (mkWorld (None :: rs) ws rds spare tr)
  = (Val (None, Some Gen_Random_Error), mkWorld rs ws rds spare (Ev_rand :: tr))
  /\ RequestRemoteIPAndPort (Some conn) (Some server)
       (mkWorld (Some id :: rs) (Write_error msg :: ws) rds spare tr)
     = (Val (None, Some (net_write_error msg)),
        mkWorld rs ws rds spare
          (Ev_write ([0x00; 0x01; 0x00; 0x00; 0x21; 0x12; 0xA4; 0x42] ++ id)
             :: Ev_rand :: tr))
  /\ RequestRemoteIPAndPort (Some conn) (Some server)
       (mkWorld (Some id :: rs) (Write_ok 20 :: ws) (Read_error msg :: rds) spare tr)
     = (Val (None, Some (net_read_error msg)),
        mkWorld rs ws rds spare
          (Ev_read
             :: Ev_write ([0x00; 0x01; 0x00; 0x00; 0x21; 0x12; 0xA4; 0x42] ++ id)
             :: Ev_rand :: tr)).
Proof.
  intros Hid. split; [reflexivity |].
  assert (Hlen : Z.of_nat (length (sample_header REQUEST 0 id)) = 20)
    by (rewrite sample_header_length by assumption; reflexivity).
  assert (Hne : sample_header REQUEST 0 id <> [])
    by (unfold sample_header; cbn; discriminate).
  change ([0x00; 0x01; 0x00; 0x00; 0x21; 0x12; 0xA4; 0x42] ++ id)
    with (sample_header REQUEST 0 id).
  split.
  - unfold RequestRemoteIPAndPort.
    change (Z.to_nat (trans_id_size / 8)) with 12%nat.
    unfold io_bind at 1. rewrite rand_Read_run.
    rewrite copy_same_length by (now rewrite repeat_length).
    rewrite makeHeader_bytes. fold (sample_header REQUEST 0 id).
    unfold io_bind. now rewrite sendMessage_write_error.
  - unfold RequestRemoteIPAndPort.
    change (Z.to_nat (trans_id_size / 8)) with 12%nat.
    unfold io_bind at 1. rewrite rand_Read_run.
    rewrite copy_same_length by (now rewrite repeat_length).
    rewrite makeHeader_bytes. fold (sample_header REQUEST 0 id).
    unfold io_bind at 1. rewrite <- Hlen at 1.
    rewrite sendMessage_one by assumption.
    unfold io_bind. now rewrite recvMessage_read_error.
Qed.

Lemma call_stops_at_failure_witness :
  RequestRemoteIPAndPort (Some udp_conn) (Some (mkUDPAddr [192; 0; 2; 1] 3478))
    (mkWorld [Some sample_id] [Write_error "network is unreachable"] [Read_ok [0x01]] 44 [])
  = (Val (None, Some (net_write_error "network is unreachable")),
     mkWorld [] [] [Read_ok [0x01]] 44
       [Ev_write ([0x00; 0x01; 0x00; 0x00; 0x21; 0x12; 0xA4; 0x42] ++ sample_id); Ev_rand]).
Proof.
  refine (proj1 (proj2 (call_stops_at_failure udp_conn (mkUDPAddr [192; 0; 2; 1] 3478)
            sample_id "network is unreachable" [] [] [Read_ok [0x01]] 44 [] _))).
  reflexivity.
Defined.

(** X20.  After a write that took only [n] bytes of the message,
    [sendMessage] offers the socket the rest of the message followed by
    the spare capacity of its buffer, not the rest of the message
    alone. *)
Theorem partial_write_resends_buffer (conn : UDPConn) (server : UDPAddr)
    (header body : list Z) (n : Z) (msg : string)
    (rs : list (option (list Z))) (ws : list write_result) (rds : list read_result)
    (spare : nat) (tr : list event) :
  header <> [] -> 0 <= n < Z.of_nat (length (header ++ body)) ->
  sendMessage conn server header body
    (mkWorld rs (Write_ok n :: Write_error msg :: ws) rds spare tr)
  = (Val (Some (net_write_error msg)),
     mkWorld rs ws rds spare
       (Ev_write (skipn (Z.to_nat n) (header ++ body) ++ repeat 0 spare)
          :: Ev_write (header ++ body) :: tr)).
Proof. apply sendMessage_partial. Qed.

Lemma partial_write_resends_buffer_witness :
  sendMessage udp_conn (mkUDPAddr [192; 0; 2; 1] 3478) [1; 2; 3; 4] [5; 6]
    (mkWorld [] [Write_ok 4; Write_error "closed"] [] 3 [])
  = (Val (Some (net_write_error "closed")),
     mkWorld [] [] [] 3
       [Ev_write (skipn (Z.to_nat 4) ([1; 2; 3; 4] ++ [5; 6]) ++ repeat 0 3);
        Ev_write ([1; 2; 3; 4] ++ [5; 6])]).
Proof.
  apply (partial_write_resends_buffer udp_conn (mkUDPAddr [192; 0; 2; 1] 3478)
           [1; 2; 3; 4] [5; 6] 4 "closed" [] [] [] 3 []).
  - discriminate.
  - cbn. lia.
Defined.

(** X21.  A call that goes through: when the entropy source gives the
    12 bytes [id], the socket takes the request in one write and the
    first read brings a datagram that is not empty, the function draws
    the id, writes the 20 bytes 00 01 00 00 21 12 A4 42 followed by
    [id], reads once, and returns what decoding the datagram with [id]
    returns, the address being dropped when an error comes with it. *)
Theorem call_sequence (conn : UDPConn) (server : UDPAddr) (id raw : list Z)
    (rs : list (option (list Z))) (ws : list write_result) (rds : list read_result)
    (spare : nat) (tr : list event) :
  length id = 12%nat -> raw <> [] ->
  RequestRemoteIPAndPort (Some conn) (Some server)
    (mkWorld (Some id :: rs) (Write_ok 20 :: ws) (Read_ok raw :: rds) spare tr)
  = (match decode (received raw) id with
     | Val (_, Some err) => Val (None, Some err)
     | Val (addr, None) => Val (addr, None)
     | Panic => Panic
     | Block => Block
     end,
     mkWorld rs ws rds spare
       (Ev_read
          :: Ev_write ([0x00; 0x01; 0x00; 0x00; 0x21; 0x12; 0xA4; 0x42] ++ id)
          :: Ev_rand :: tr)).
Proof. apply RequestRemoteIPAndPort_run. Qed.

Lemma call_sequence_witness :
  RequestRemoteIPAndPort (Some udp_conn) (Some (mkUDPAddr [192; 0; 2; 1] 3478))
    (mkWorld [Some sample_id] [Write_ok 20]
       [Read_ok (sample_header SUCCESS_RESPONSE 12 sample_id ++ sample_xor_attribute)] 44 [])
  = (Val (Some sample_address, None),
     mkWorld [] [] [] 44
       [Ev_read;
        Ev_write ([0x00; 0x01; 0x00; 0x00; 0x21; 0x12; 0xA4; 0x42] ++ sample_id);
        Ev_rand]).
Proof.
  apply (call_sequence udp_conn (mkUDPAddr [192; 0; 2; 1] 3478) sample_id
           (sample_header SUCCESS_RESPONSE 12 sample_id ++ sample_xor_attribute)
           [] [] [] 44 []).
  - reflexivity.
  - discriminate.
Defined.

(** X22.  The attribute loop ends: every turn that does not return adds
    at least 4 to the count of bytes read, so within as many turns as
    the message length exceeds that count the loop has returned or
    panicked. *)
Theorem attribute_walk_ends (fuel : nat) (ml : Z) (tid : list Z) (bytes_read : Z)
    (body : slice) :
  ml - bytes_read <= Z.of_nat fuel ->
  exists res, attribute_loop fuel ml tid bytes_read body = Some res /\ res <> Block.
Proof.
  intros Hf.
  destruct (attribute_loop fuel ml tid bytes_read body) as [res |] eqn:Hloop.
  - exists res. split; [reflexivity |]. intros ->. revert Hloop.
    apply attribute_loop_no_block.
  - exfalso. revert Hloop. now apply attribute_loop_fuel.
Qed.

Lemma attribute_walk_ends_witness :
  exists res,
    attribute_loop 8 8 sample_id 0 (mkSlice [0x00; 0x06; 0x00; 0x04; 0x75; 0x73; 0x65; 0x72] 8)
    = Some res /\ res <> Block.
Proof.
  apply (attribute_walk_ends 8 8 sample_id 0
           (mkSlice [0x00; 0x06; 0x00; 0x04; 0x75; 0x73; 0x65; 0x72] 8)).
  cbn. lia.
Defined.



(** X24.  A lone attribute of any other type is passed over: a success
    response with the expected id whose body is exactly one attribute
    that is neither MAPPED-ADDRESS nor XOR-MAPPED-ADDRESS, of a type the
    package names or not, is decoded to no address and no error. *)
Theorem lone_other_attribute_ignored (header value tid : list Z) (t0 t1 : Z) :
  length header = 20%nat -> (length value <= 1256)%nat ->
  Message_type (header_of_bytes header) = SUCCESS_RESPONSE ->
  Transaction_id (header_of_bytes header) = tid ->
  Message_length (header_of_bytes header) = 4 + Z.of_nat (length value) ->
  int16_of (get_uint16 t0 t1) <> MAPPED_ADDRESS ->
  int16_of (get_uint16 t0 t1) <> XOR_MAPPED_ADDRESS ->
  decode (received (header ++ [t0; t1] ++ put_uint16 (Z.of_nat (length value)) ++ value))
         tid
  = Val (None, None).
Proof.
  intros Hh Hv Hty Hid HL Hty1 Hty2.
  rewrite decode_walk_start; try assumption; try lia.
  2: { unfold put_uint16. cbn [app length]. lia. }
  unfold put_uint16. cbn [app]. rewrite HL.
  pose proof (length_from_bytes (length value)) as HLen.
  pose proof (walk_exhausts_single t0 t1
                (byte_of (Z.shiftr (Z.of_nat (length value)) 8))
                (byte_of (Z.of_nat (length value)))
                (value ++ repeat 0 (1260 - S (S (S (S (length value))))))) as Hw.
  cbv zeta in Hw. rewrite HLen in Hw by lia.
  rewrite (attribute_loop_exhausts _ tid _ _ (Hw ltac:(lia)
             ltac:(rewrite length_app; lia) ltac:(lia) Hty1 Hty2));
    [reflexivity | lia].
Qed.

Lemma lone_other_attribute_ignored_witness :
  decode (received (sample_header SUCCESS_RESPONSE 8 sample_id
                      ++ [0x7F; 0xFF] ++ put_uint16 4 ++ [0x75; 0x73; 0x65; 0x72]))
         sample_id
  = Val (None, None).
Proof.
  apply (lone_other_attribute_ignored (sample_header SUCCESS_RESPONSE 8 sample_id)
           [0x75; 0x73; 0x65; 0x72] sample_id 0x7F 0xFF).
  - reflexivity.
  - cbn. lia.
  - reflexivity.
  - reflexivity.
  - reflexivity.
  - vm_compute. discriminate.
  - vm_compute. discriminate.
Defined.
